(** * Tunnel Vision: the focus overlay of [tunnel_vision/main_cli.py]

    A shallow embedding of [FocusOverlayWidget]: the rectangle arithmetic of
    the five drag handles, the mouse and keyboard handlers, and the
    timer-driven injection of scroll events.  The widget's attributes become
    the fields of a record, every handler becomes a function from widget
    state to widget state, and what the widget sends to the outside (the
    scroll events posted to the operating system, the warnings logged) is
    collected in two trace fields. *)

From Stdlib Require Import ZArith List String Ascii Bool Lia DecimalString.
Import ListNotations.

Local Open Scope string_scope.
Local Open Scope Z_scope.

(** ** Qt geometry

    [QPoint] and [QRect] as Qt declares them, over integers.  A [QRect] keeps
    its two corners; the constructor [QRect(x, y, w, h)] stores
    [x2 = x + w - 1] and [y2 = y + h - 1], and [width()] and [height()] are
    recomputed from the corners. *)

Module Qt.

Record QPoint : Type := mkPoint { px : Z; py : Z }.

Record QRect : Type := mkCorners { x1 : Z; y1 : Z; x2 : Z; y2 : Z }.

(** [QRect(x, y, w, h)] *)
Definition mkRect (x y w h : Z) : QRect :=
  {| x1 := x; y1 := y; x2 := x + w - 1; y2 := y + h - 1 |}.

(** [QRect()], the null rectangle *)
Definition nullRect : QRect := {| x1 := 0; y1 := 0; x2 := -1; y2 := -1 |}.

Definition x (r : QRect) : Z := x1 r.
Definition y (r : QRect) : Z := y1 r.
Definition width (r : QRect) : Z := x2 r - x1 r + 1.
Definition height (r : QRect) : Z := y2 r - y1 r + 1.
Definition top (r : QRect) : Z := y1 r.

Definition topLeft (r : QRect) : QPoint := mkPoint (x1 r) (y1 r).
Definition topRight (r : QRect) : QPoint := mkPoint (x2 r) (y1 r).
Definition bottomLeft (r : QRect) : QPoint := mkPoint (x1 r) (y2 r).
Definition bottomRight (r : QRect) : QPoint := mkPoint (x2 r) (y2 r).

(** [center()] halves the sum of the corners with C++ integer division,
    which truncates towards zero. *)
Definition center (r : QRect) : QPoint :=
  mkPoint (Z.quot (x1 r + x2 r) 2) (Z.quot (y1 r + y2 r) 2).

(** The cursor shapes the overlay asks for. *)
Inductive CursorShape : Type :=
| ArrowCursor
| SizeAllCursor
| SizeFDiagCursor
| SizeBDiagCursor.

(** The keys the overlay may receive; [Key_Other] stands for every key the
    handler has no branch for. *)
Inductive Key : Type :=
| Key_Escape
| Key_Space
| Key_T
| Key_S
| Key_Plus
| Key_Equal
| Key_Minus
| Key_Other.

End Qt.

Import Qt.

(** ** Strings

    Python's [sub in s] on strings: [sub] occurs in [s] as a contiguous
    substring. *)

Fixpoint str_in (sub s : string) : bool :=
  String.prefix sub s ||
  match s with
  | EmptyString => false
  | String _ t => str_in sub t
  end.

(** Python's [str(n)] for a non-negative integer. *)
Definition str_of_nat_Z (n : Z) : string :=
  NilZero.string_of_uint (N.to_uint (Z.to_N n)).

(** ** The five anchors

    The source names the anchors by strings, the keys of the [corners]
    dictionary.  [Corner] enumerates the keys, [corner_name] gives the
    string the source uses. *)

Inductive Corner : Type :=
| TopLeft
| TopRight
| BottomLeft
| BottomRight
| TopMiddle.

Definition corner_name (c : Corner) : string :=
  match c with
  | TopLeft => "top-left"
  | TopRight => "top-right"
  | BottomLeft => "bottom-left"
  | BottomRight => "bottom-right"
  | TopMiddle => "top-middle"
  end.

Definition all_corners : list Corner :=
  [TopLeft; TopRight; BottomLeft; BottomRight; TopMiddle].

(** The [corners] dictionary literal that [paintEvent], [mouseMoveEvent] and
    [mousePressEvent] each build; a Python dictionary iterates in insertion
    order, so it is an association list. *)
Definition corners (focus_rect : QRect) : list (string * QPoint) :=
  [ ("top-left", topLeft focus_rect);
    ("top-right", topRight focus_rect);
    ("bottom-left", bottomLeft focus_rect);
    ("bottom-right", bottomRight focus_rect);
    ("top-middle", mkPoint (px (center focus_rect)) (top focus_rect)) ].

(** ** [_update_rect_dimensions]

    [new_dims] is the four-key dictionary of the source. *)

Record Dims : Type := mkDims { d_x : Z; d_y : Z; d_width : Z; d_height : Z }.

Definition set_x (v : Z) (d : Dims) : Dims :=
  {| d_x := v; d_y := d_y d; d_width := d_width d; d_height := d_height d |}.
Definition set_y (v : Z) (d : Dims) : Dims :=
  {| d_x := d_x d; d_y := v; d_width := d_width d; d_height := d_height d |}.
Definition set_width (v : Z) (d : Dims) : Dims :=
  {| d_x := d_x d; d_y := d_y d; d_width := v; d_height := d_height d |}.
Definition set_height (v : Z) (d : Dims) : Dims :=
  {| d_x := d_x d; d_y := d_y d; d_width := d_width d; d_height := v |}.

Definition min_width : Z := 100.
Definition min_height : Z := 100.

(** "Handle horizontal changes" *)
Definition horizontal_changes (dx : Z) (corner : string) (d : Dims) : Dims :=
  if str_in "left" corner then set_width (d_width d - dx) (set_x (d_x d + dx) d)
  else if str_in "right" corner then set_width (d_width d + dx) d
  else d.

(** "Handle vertical changes" *)
Definition vertical_changes (dy : Z) (corner : string) (d : Dims) : Dims :=
  if str_in "top" corner then set_height (d_height d - dy) (set_y (d_y d + dy) d)
  else if str_in "bottom" corner then set_height (d_height d + dy) d
  else d.

(** "Enforce minimum dimensions", the width half *)
Definition enforce_min_width (rect : QRect) (corner : string) (d : Dims) : Dims :=
  if d_width d <? min_width then
    let d' :=
      if str_in "left" corner
      then set_x (x rect + (width rect - min_width)) d
      else d in
    set_width min_width d'
  else d.

(** "Enforce minimum dimensions", the height half *)
Definition enforce_min_height (rect : QRect) (corner : string) (d : Dims) : Dims :=
  if d_height d <? min_height then
    let d' :=
      if str_in "top" corner
      then set_y (y rect + (height rect - min_height)) d
      else d in
    set_height min_height d'
  else d.

Definition _update_rect_dimensions (rect : QRect) (dx dy : Z) (corner : string)
  : QRect :=
  let new_dims :=
    {| d_x := x rect; d_y := y rect;
       d_width := width rect; d_height := height rect |} in
  let new_dims :=
    if String.eqb corner "top-middle" then
      set_y (d_y new_dims + dy) (set_x (d_x new_dims + dx) new_dims)
    else
      enforce_min_height rect corner
        (enforce_min_width rect corner
           (vertical_changes dy corner
              (horizontal_changes dx corner new_dims))) in
  mkRect (d_x new_dims) (d_y new_dims) (d_width new_dims) (d_height new_dims).

(** ** The widget state

    [FocusAreaWidget] is the child widget over the focus rectangle; of
    [QTimer] the overlay uses [start(msec)] and [stop()] only. *)

Record FocusAreaWidget : Type := mkFocusArea {
  fa_focus_rect : QRect;
  fa_geometry : QRect;
  WA_TransparentForMouseEvents : bool;
  fa_visible : bool
}.

Record QTimer : Type := mkTimer {
  isActive : bool;
  interval : Z
}.

Definition timer_start (msec : Z) (t : QTimer) : QTimer :=
  {| isActive := true; interval := msec |}.

Definition timer_stop (t : QTimer) : QTimer :=
  {| isActive := false; interval := interval t |}.

(** The attributes [__init__] sets once and no handler assigns again. *)
Definition hit_threshold : Z := 14.
Definition scroll_interval : Z := 10000.
Definition smooth_scroll_steps : Z := 50.

(** The attributes of [FocusOverlayWidget] that the handlers assign, the
    cursor and the closed flag of the window, and two traces: [posted], the
    scroll deltas handed to [CGEventPost], oldest first, and [warnings], the
    messages passed to [logging.warning]. *)
Record Widget : Type := mkWidget {
  always_on_top : bool;
  stays_on_top_hint : bool;
  focus_rect : QRect;
  dragging : bool;
  drag_corner : option string;
  drag_start_pos : option QPoint;
  original_rect : QRect;
  auto_scrolling : bool;
  smooth_scroll_timer : QTimer;
  scroll_speed : Z;
  current_smooth_step : Z;
  last_action : string;
  focus_area : FocusAreaWidget;
  cursor : CursorShape;
  closed : bool;
  posted : list Z;
  warnings : list string
}.

(** [FocusOverlayWidget.__init__] *)
Definition init : Widget :=
  let r := mkRect 200 150 800 500 in
  {| always_on_top := true;
     stays_on_top_hint := true;
     focus_rect := r;
     dragging := false;
     drag_corner := None;
     drag_start_pos := None;
     original_rect := nullRect;
     auto_scrolling := false;
     smooth_scroll_timer := {| isActive := false; interval := 0 |};
     scroll_speed := -1;
     current_smooth_step := 0;
     last_action := "Ready";
     focus_area :=
       {| fa_focus_rect := r; fa_geometry := r;
          WA_TransparentForMouseEvents := false; fa_visible := true |};
     cursor := ArrowCursor;
     closed := false;
     posted := [];
     warnings := [] |}.

(** Field updates, one per assigned attribute. *)
Definition with_always_on_top (v : bool) (w : Widget) : Widget :=
  mkWidget v (stays_on_top_hint w) (focus_rect w) (dragging w)
    (drag_corner w) (drag_start_pos w) (original_rect w) (auto_scrolling w)
    (smooth_scroll_timer w) (scroll_speed w) (current_smooth_step w)
    (last_action w) (focus_area w) (cursor w) (closed w) (posted w)
    (warnings w).

Definition with_stays_on_top_hint (v : bool) (w : Widget) : Widget :=
  mkWidget (always_on_top w) v (focus_rect w) (dragging w)
    (drag_corner w) (drag_start_pos w) (original_rect w) (auto_scrolling w)
    (smooth_scroll_timer w) (scroll_speed w) (current_smooth_step w)
    (last_action w) (focus_area w) (cursor w) (closed w) (posted w)
    (warnings w).

Definition with_focus_rect (v : QRect) (w : Widget) : Widget :=
  mkWidget (always_on_top w) (stays_on_top_hint w) v (dragging w)
    (drag_corner w) (drag_start_pos w) (original_rect w) (auto_scrolling w)
    (smooth_scroll_timer w) (scroll_speed w) (current_smooth_step w)
    (last_action w) (focus_area w) (cursor w) (closed w) (posted w)
    (warnings w).

Definition with_drag (d : bool) (c : option string) (p : option QPoint)
    (o : QRect) (w : Widget) : Widget :=
  mkWidget (always_on_top w) (stays_on_top_hint w) (focus_rect w) d c p o
    (auto_scrolling w) (smooth_scroll_timer w) (scroll_speed w)
    (current_smooth_step w) (last_action w) (focus_area w) (cursor w)
    (closed w) (posted w) (warnings w).

Definition with_auto_scrolling (v : bool) (w : Widget) : Widget :=
  mkWidget (always_on_top w) (stays_on_top_hint w) (focus_rect w)
    (dragging w) (drag_corner w) (drag_start_pos w) (original_rect w) v
    (smooth_scroll_timer w) (scroll_speed w) (current_smooth_step w)
    (last_action w) (focus_area w) (cursor w) (closed w) (posted w)
    (warnings w).

Definition with_timer (v : QTimer) (w : Widget) : Widget :=
  mkWidget (always_on_top w) (stays_on_top_hint w) (focus_rect w)
    (dragging w) (drag_corner w) (drag_start_pos w) (original_rect w)
    (auto_scrolling w) v (scroll_speed w) (current_smooth_step w)
    (last_action w) (focus_area w) (cursor w) (closed w) (posted w)
    (warnings w).

Definition with_scroll_speed (v : Z) (w : Widget) : Widget :=
  mkWidget (always_on_top w) (stays_on_top_hint w) (focus_rect w)
    (dragging w) (drag_corner w) (drag_start_pos w) (original_rect w)
    (auto_scrolling w) (smooth_scroll_timer w) v (current_smooth_step w)
    (last_action w) (focus_area w) (cursor w) (closed w) (posted w)
    (warnings w).

Definition with_current_smooth_step (v : Z) (w : Widget) : Widget :=
  mkWidget (always_on_top w) (stays_on_top_hint w) (focus_rect w)
    (dragging w) (drag_corner w) (drag_start_pos w) (original_rect w)
    (auto_scrolling w) (smooth_scroll_timer w) (scroll_speed w) v
    (last_action w) (focus_area w) (cursor w) (closed w) (posted w)
    (warnings w).

Definition with_last_action (v : string) (w : Widget) : Widget :=
  mkWidget (always_on_top w) (stays_on_top_hint w) (focus_rect w)
    (dragging w) (drag_corner w) (drag_start_pos w) (original_rect w)
    (auto_scrolling w) (smooth_scroll_timer w) (scroll_speed w)
    (current_smooth_step w) v (focus_area w) (cursor w) (closed w)
    (posted w) (warnings w).

Definition with_focus_area (v : FocusAreaWidget) (w : Widget) : Widget :=
  mkWidget (always_on_top w) (stays_on_top_hint w) (focus_rect w)
    (dragging w) (drag_corner w) (drag_start_pos w) (original_rect w)
    (auto_scrolling w) (smooth_scroll_timer w) (scroll_speed w)
    (current_smooth_step w) (last_action w) v (cursor w) (closed w)
    (posted w) (warnings w).

Definition with_cursor (v : CursorShape) (w : Widget) : Widget :=
  mkWidget (always_on_top w) (stays_on_top_hint w) (focus_rect w)
    (dragging w) (drag_corner w) (drag_start_pos w) (original_rect w)
    (auto_scrolling w) (smooth_scroll_timer w) (scroll_speed w)
    (current_smooth_step w) (last_action w) (focus_area w) v (closed w)
    (posted w) (warnings w).

Definition with_closed (v : bool) (w : Widget) : Widget :=
  mkWidget (always_on_top w) (stays_on_top_hint w) (focus_rect w)
    (dragging w) (drag_corner w) (drag_start_pos w) (original_rect w)
    (auto_scrolling w) (smooth_scroll_timer w) (scroll_speed w)
    (current_smooth_step w) (last_action w) (focus_area w) (cursor w) v
    (posted w) (warnings w).

Definition with_posted (v : list Z) (w : Widget) : Widget :=
  mkWidget (always_on_top w) (stays_on_top_hint w) (focus_rect w)
    (dragging w) (drag_corner w) (drag_start_pos w) (original_rect w)
    (auto_scrolling w) (smooth_scroll_timer w) (scroll_speed w)
    (current_smooth_step w) (last_action w) (focus_area w) (cursor w)
    (closed w) v (warnings w).

Definition with_warnings (v : list string) (w : Widget) : Widget :=
  mkWidget (always_on_top w) (stays_on_top_hint w) (focus_rect w)
    (dragging w) (drag_corner w) (drag_start_pos w) (original_rect w)
    (auto_scrolling w) (smooth_scroll_timer w) (scroll_speed w)
    (current_smooth_step w) (last_action w) (focus_area w) (cursor w)
    (closed w) (posted w) v.

(** [focus_area.setAttribute(WA_TransparentForMouseEvents, v)] *)
Definition fa_setTransparent (v : bool) (f : FocusAreaWidget) : FocusAreaWidget :=
  mkFocusArea (fa_focus_rect f) (fa_geometry f) v (fa_visible f).

(** [focus_area.hide()] and [focus_area.show()] *)
Definition fa_setVisible (v : bool) (f : FocusAreaWidget) : FocusAreaWidget :=
  mkFocusArea (fa_focus_rect f) (fa_geometry f)
    (WA_TransparentForMouseEvents f) v.

(** [update_focus_area_geometry] *)
Definition update_focus_area_geometry (w : Widget) : Widget :=
  with_focus_area
    (mkFocusArea (focus_rect w) (focus_rect w)
       (WA_TransparentForMouseEvents (focus_area w))
       (fa_visible (focus_area w)))
    w.

(** ** [paintEvent]

    Painting reads the state and changes none of it; what the claims need
    of it is the list of status lines. *)

Definition info_display (w : Widget) : list string :=
  [ "ESC: Exit";
    "SPACE: Scroll Direction ["
      ++ (if (scroll_speed w <? 0)%Z then "DOWN" else "UP") ++ "]";
    "+/-: Scroll Speed [" ++ str_of_nat_Z (Z.abs (scroll_speed w)) ++ "]";
    "S: Auto-Scroll [" ++ (if auto_scrolling w then "ON" else "OFF") ++ "]";
    "T: Always on Top [" ++ (if always_on_top w then "ON" else "OFF") ++ "]"
  ]%string.

(** ** Hit-testing

    [mouseMoveEvent] and [mousePressEvent] run the same loop over
    [corners.items()]: the first entry whose point is within [hit_threshold]
    of the pointer on both axes ends the loop. *)

Definition near (point pos : QPoint) : bool :=
  (Z.abs (px point - px pos) <=? hit_threshold)
  && (Z.abs (py point - py pos) <=? hit_threshold).

Fixpoint first_hit (items : list (string * QPoint)) (pos : QPoint)
  : option string :=
  match items with
  | [] => None
  | (corner, point) :: rest =>
      if near point pos then Some corner else first_hit rest pos
  end.

(** [_update_cursor_for_corner] *)
Definition _update_cursor_for_corner (corner : string) (w : Widget) : Widget :=
  if String.eqb corner "top-middle" then with_cursor SizeAllCursor w
  else if String.eqb corner "top-left" || String.eqb corner "bottom-right"
  then with_cursor SizeFDiagCursor w
  else with_cursor SizeBDiagCursor w.

(** [mouseMoveEvent].  The result is [None] where Python raises: a drag in
    progress with no start position or no corner recorded. *)
Definition mouseMoveEvent (pos : QPoint) (w : Widget) : option Widget :=
  if dragging w then
    match drag_start_pos w, drag_corner w with
    | Some start, Some corner =>
        let dx := px pos - px start in
        let dy := py pos - py start in
        Some (with_focus_rect
                (_update_rect_dimensions (original_rect w) dx dy corner) w)
    | _, _ => None
    end
  else
    match first_hit (corners (focus_rect w)) pos with
    | Some corner => Some (_update_cursor_for_corner corner w)
    | None => Some (with_cursor ArrowCursor w)
    end.

(** [mousePressEvent] *)
Definition mousePressEvent (pos : QPoint) (w : Widget) : Widget :=
  match first_hit (corners (focus_rect w)) pos with
  | Some corner =>
      let w := with_drag true (Some corner) (Some pos) (focus_rect w) w in
      let w := with_last_action ("Dragging " ++ corner) w in
      with_focus_area (fa_setVisible false (focus_area w)) w
  | None => w
  end.

(** [mouseReleaseEvent] *)
Definition mouseReleaseEvent (w : Widget) : Widget :=
  if dragging w then
    let w := with_drag false None (drag_start_pos w) (original_rect w) w in
    let w := with_last_action "Ready" w in
    let w := update_focus_area_geometry w in
    with_focus_area (fa_setVisible true (focus_area w)) w
  else w.

(** ** Auto-scroll *)

(** [int(self.scroll_interval / self.smooth_scroll_steps)]: the quotient of
    the two attributes, truncated. *)
Definition smooth_interval : Z := Z.quot scroll_interval smooth_scroll_steps.

(** [toggle_auto_scroll] *)
Definition toggle_auto_scroll (w : Widget) : Widget :=
  let w := with_auto_scrolling (negb (auto_scrolling w)) w in
  if auto_scrolling w then
    let w := with_last_action "Started auto-scrolling" w in
    let w := with_focus_area (fa_setTransparent true (focus_area w)) w in
    let w := with_current_smooth_step 0 w in
    with_timer (timer_start smooth_interval (smooth_scroll_timer w)) w
  else
    let w := with_last_action "Stopped auto-scrolling" w in
    let w := with_timer (timer_stop (smooth_scroll_timer w)) w in
    with_focus_area (fa_setTransparent false (focus_area w)) w.

(** What the two CoreGraphics calls of one tick do: they return, and the
    event is in the system's input stream, or one of them raises an
    exception with a message. *)
Inductive Injection : Type :=
| Posts
| Raises (msg : string).

(** [perform_smooth_scroll].  [available] is [MACOS_MODULES_AVAILABLE], set
    when the module is imported; [inj] is what the CoreGraphics calls do on
    this tick, should the handler get to them. *)
Definition perform_smooth_scroll (available : bool) (inj : Injection)
    (w : Widget) : Widget :=
  if negb (auto_scrolling w) || negb available then
    with_timer (timer_stop (smooth_scroll_timer w)) w
  else
    match inj with
    | Posts =>
        let pixels_per_step := Z.abs (scroll_speed w) * 1 in
        let delta :=
          if scroll_speed w >? 0 then pixels_per_step else - pixels_per_step in
        let w := with_posted (posted w ++ [delta]) w in
        let w := with_current_smooth_step (current_smooth_step w + 1) w in
        if current_smooth_step w >=? smooth_scroll_steps
        then with_current_smooth_step 0 w
        else w
    | Raises e =>
        let w :=
          with_warnings
            (warnings w ++ ["Failed to send smooth scroll event: " ++ e]) w in
        with_timer (timer_stop (smooth_scroll_timer w)) w
    end.

(** ** [keyPressEvent] *)

Definition keyPressEvent (key : Key) (w : Widget) : Widget :=
  match key with
  | Key_Escape => with_closed true w
  | Key_Space =>
      let w := with_scroll_speed (- scroll_speed w) w in
      let direction := if scroll_speed w <? 0 then "DOWN" else "UP" in
      with_last_action ("Changed scroll direction to " ++ direction) w
  | Key_T =>
      let w := with_always_on_top (negb (always_on_top w)) w in
      let w := with_stays_on_top_hint (always_on_top w) w in
      with_last_action
        ("Always on top: " ++ (if always_on_top w then "ON" else "OFF")) w
  | Key_S => toggle_auto_scroll w
  | Key_Plus | Key_Equal =>
      if scroll_speed w >? 0
      then with_scroll_speed (scroll_speed w + 1) w
      else with_scroll_speed (scroll_speed w - 1) w
  | Key_Minus =>
      if scroll_speed w >? 0
      then with_scroll_speed (Z.max 1 (scroll_speed w - 1)) w
      else with_scroll_speed (Z.min (-1) (scroll_speed w + 1)) w
  | Key_Other => w
  end.

(** ** The event loop

    The events Qt delivers to the overlay.  A timer tick is delivered only
    while the timer is active. *)

Inductive Event : Type :=
| MouseMove (pos : QPoint)
| MousePress (pos : QPoint)
| MouseRelease
| KeyPress (key : Key)
| TimerTick (inj : Injection).

Definition deliverable (e : Event) (w : Widget) : bool :=
  match e with
  | TimerTick _ => isActive (smooth_scroll_timer w)
  | _ => true
  end.

Definition dispatch (available : bool) (e : Event) (w : Widget)
  : option Widget :=
  match e with
  | MouseMove pos => mouseMoveEvent pos w
  | MousePress pos => Some (mousePressEvent pos w)
  | MouseRelease => Some (mouseReleaseEvent w)
  | KeyPress key => Some (keyPressEvent key w)
  | TimerTick inj => Some (perform_smooth_scroll available inj w)
  end.

(** The widget states the event loop can produce from [init]. *)
Inductive reachable (available : bool) : Widget -> Prop :=
| reach_init : reachable available init
| reach_step : forall e w w',
    reachable available w ->
    deliverable e w = true ->
    dispatch available e w = Some w' ->
    reachable available w'.

(** Running a list of events in order; an undeliverable tick is skipped,
    and the run stops with [None] where a handler raises. *)
Fixpoint run (available : bool) (es : list Event) (w : Widget)
  : option Widget :=
  match es with
  | [] => Some w
  | e :: rest =>
      if deliverable e w then
        match dispatch available e w with
        | Some w' => run available rest w'
        | None => None
        end
      else run available rest w
  end.

(** ** Derived notions used in the statements *)

(** The cursor [_update_cursor_for_corner] sets for each anchor. *)
Definition cursor_for (corner : string) : CursorShape :=
  cursor (_update_cursor_for_corner corner init).

(** What the handlers keep true of the state, and so what holds in every
    reachable state. *)
Record consistent (w : Widget) : Prop := mkConsistent {
  rect_wide : 100 <= width (focus_rect w);
  rect_high : 100 <= height (focus_rect w);
  drag_recorded :
    dragging w = true ->
    exists c start,
      drag_corner w = Some (corner_name c) /\
      drag_start_pos w = Some start /\
      100 <= width (original_rect w) /\
      100 <= height (original_rect w);
  speed_nonzero : scroll_speed w <> 0;
  step_in_range : 0 <= current_smooth_step w < smooth_scroll_steps;
  timer_implies_flag :
    isActive (smooth_scroll_timer w) = true -> auto_scrolling w = true;
  click_through_is_flag :
    WA_TransparentForMouseEvents (focus_area w) = auto_scrolling w
}.

(** What the toggle is claimed to restore. *)
Definition scroll_flags (w : Widget) : bool * bool * bool :=
  (auto_scrolling w,
   isActive (smooth_scroll_timer w),
   WA_TransparentForMouseEvents (focus_area w)).

(** The state after enabling auto-scroll without the macOS modules and
    letting the timer tick once. *)
Definition stalled : Widget :=
  perform_smooth_scroll false Posts (toggle_auto_scroll init).

(** The pointer moves of one drag, in order. *)
Fixpoint moves (path : list QPoint) (w : Widget) : option Widget :=
  match path with
  | [] => Some w
  | p :: rest =>
      match mouseMoveEvent p w with
      | Some w' => moves rest w'
      | None => None
      end
  end.

(** What else the handlers keep true of the state: the window flag, the
    child widget over the focus rectangle, the timer period and the events
    posted so far. *)
Record arranged (w : Widget) : Prop := mkArranged {
  hint_is_flag : stays_on_top_hint w = always_on_top w;
  area_follows :
    dragging w = false ->
    fa_geometry (focus_area w) = focus_rect w /\
    fa_focus_rect (focus_area w) = focus_rect w /\
    fa_visible (focus_area w) = true;
  area_hidden : dragging w = true -> fa_visible (focus_area w) = false;
  timer_period :
    isActive (smooth_scroll_timer w) = true ->
    interval (smooth_scroll_timer w) = 200;
  posted_nonzero : Forall (fun d => d <> 0) (posted w)
}.

(** The attributes auto-scroll works on, and the attributes a drag works
    on. *)
Definition scroll_part (w : Widget)
  : bool * QTimer * Z * Z * list Z * list string :=
  (auto_scrolling w, smooth_scroll_timer w, scroll_speed w,
   current_smooth_step w, posted w, warnings w).

Definition drag_part (w : Widget)
  : QRect * bool * option string * option QPoint * QRect * CursorShape :=
  (focus_rect w, dragging w, drag_corner w, drag_start_pos w,
   original_rect w, cursor w).

Definition is_mouse (e : Event) : bool :=
  match e with
  | MouseMove _ | MousePress _ | MouseRelease => true
  | KeyPress _ | TimerTick _ => false
  end.

(** A tick whose injection raises. *)
Definition raising (e : Event) : bool :=
  match e with
  | TimerTick (Raises _) => true
  | _ => false
  end.

(** * Properties *)

(** ** Tactics

    [eval_strings] decides the string tests of the source once the corner
    is a literal; [unfold_resize] opens the resize computation down to
    integer comparisons. *)

Ltac eval_strings :=
  repeat match goal with
  | |- context [str_in ?a ?b] =>
      let v := eval vm_compute in (str_in a b) in
      change (str_in a b) with v
  | |- context [String.eqb ?a ?b] =>
      let v := eval vm_compute in (String.eqb a b) in
      change (String.eqb a b) with v
  end;
  cbv beta iota zeta.

Ltac unfold_resize :=
  cbv beta delta
    [_update_rect_dimensions enforce_min_height enforce_min_width
     vertical_changes horizontal_changes corner_name
     set_x set_y set_width set_height min_width min_height];
  eval_strings;
  cbn [d_x d_y d_width d_height].

Ltac split_comparisons :=
  repeat match goal with
  | |- context [?a <? ?b] =>
      destruct (Z.ltb_spec a b); cbn [d_x d_y d_width d_height] in *
  end.

Ltac open_rect :=
  cbv beta delta [mkRect width height x y] in *;
  cbn [x1 y1 x2 y2] in *.

(** ** Geometry *)

(** The constructor and the accessors of [QRect] agree. *)
Lemma mkRect_accessors (a b w h : Z) :
  x (mkRect a b w h) = a /\ y (mkRect a b w h) = b /\
  width (mkRect a b w h) = w /\ height (mkRect a b w h) = h.
Proof. open_rect. repeat split; lia. Qed.

Lemma mkRect_of_accessors (r : QRect) :
  mkRect (x r) (y r) (width r) (height r) = r.
Proof. destruct r as [a b c d]. open_rect. f_equal; lia. Qed.

(** Every key of [corners] is the name of an anchor, in the order of
    [all_corners]. *)
Lemma corners_keys (r : QRect) :
  map fst (corners r) = map corner_name all_corners.
Proof. reflexivity. Qed.

(** A zero displacement leaves a rectangle of at least the minimum size as
    it is, whatever the anchor. *)
Lemma resize_zero (r : QRect) (c : Corner) :
  100 <= width r -> 100 <= height r ->
  _update_rect_dimensions r 0 0 (corner_name c) = r.
Proof.
  intros Hw Hh. destruct r as [a b c' d].
  destruct c; unfold_resize; split_comparisons; open_rect;
    f_equal; lia.
Qed.

(** The clamp, for all five anchors; the state invariant below rests on
    it. *)
Lemma resize_at_least_minimum (r : QRect) (dx dy : Z) (c : Corner) :
  100 <= width r -> 100 <= height r ->
  100 <= width (_update_rect_dimensions r dx dy (corner_name c)) /\
  100 <= height (_update_rect_dimensions r dx dy (corner_name c)).
Proof.
  intros Hw Hh.
  destruct c; unfold_resize; split_comparisons; open_rect; lia.
Qed.

Section Resize.

Variable rect : QRect.
Variables dx dy : Z.

Let resized (c : Corner) : QRect :=
  _update_rect_dimensions rect dx dy (corner_name c).

(** C3. From a rectangle at least 100 wide and 100 high, the rectangle the
    resize computation returns is at least 100 wide and 100 high, for each
    of the five anchors and every displacement. *)
Theorem resize_respects_minimum (c : Corner) :
  100 <= width rect -> 100 <= height rect ->
  100 <= width (resized c) /\ 100 <= height (resized c).
Proof.
  intros Hw Hh. subst resized. cbv beta.
  destruct c; unfold_resize; split_comparisons; open_rect.
  (* top-left, top-right, bottom-left, bottom-right: four clamp cases each *)
  1-16: lia.
  (* top-middle: the size is the starting size *)
  lia.
Qed.

(** C4. Resizing from a corner leaves the two opposite edges where they
    were, with or without the minimum-size clamp: the right edge is
    [x + width], the bottom edge [y + height], the left edge [x], the top
    edge [y]. *)
Theorem resize_fixes_opposite_edges :
  (x (resized TopLeft) + width (resized TopLeft) = x rect + width rect /\
   y (resized TopLeft) + height (resized TopLeft) = y rect + height rect) /\
  (x (resized BottomRight) = x rect /\ y (resized BottomRight) = y rect) /\
  (x (resized TopRight) = x rect /\
   y (resized TopRight) + height (resized TopRight) = y rect + height rect) /\
  (x (resized BottomLeft) + width (resized BottomLeft) = x rect + width rect /\
   y (resized BottomLeft) = y rect).
Proof.
  subst resized. cbv beta.
  repeat split; unfold_resize; split_comparisons; open_rect; lia.
Qed.

End Resize.

(** C5. The two worked examples: from (200,150,800,500), "bottom-right" by
    (50,-30) gives (200,150,850,470), and "top-left" by (750,450) gives the
    clamped (900,550,100,100). *)
Theorem resize_worked_examples :
  _update_rect_dimensions (mkRect 200 150 800 500) 50 (-30) "bottom-right"
    = mkRect 200 150 850 470 /\
  _update_rect_dimensions (mkRect 200 150 800 500) 750 450 "top-left"
    = mkRect 900 550 100 100.
Proof. split; vm_compute; reflexivity. Qed.

Lemma resize_respects_minimum_witness :
  let r := mkRect 200 150 800 500 in
  (100 <= width r /\ 100 <= height r) /\
  100 <= width (_update_rect_dimensions r 750 450 (corner_name TopLeft)) /\
  100 <= height (_update_rect_dimensions r 750 450 (corner_name TopLeft)).
Proof.
  cbv zeta. split.
  - open_rect. lia.
  - apply (resize_respects_minimum (mkRect 200 150 800 500) 750 450 TopLeft);
      open_rect; lia.
Defined.

(** ** Hit-testing *)

Lemma near_spec (point pos : QPoint) :
  near point pos = true <->
  Z.abs (px point - px pos) <= 14 /\ Z.abs (py point - py pos) <= 14.
Proof.
  unfold near, hit_threshold.
  rewrite andb_true_iff, !Z.leb_le. reflexivity.
Qed.

(** The loop returns the first entry whose point is near the pointer: the
    entries before it are not near, and with no near entry there is no
    result. *)
Lemma first_hit_spec (items : list (string * QPoint)) (pos : QPoint) :
  match first_hit items pos with
  | Some corner =>
      exists before point after,
        items = (before ++ (corner, point) :: after)%list /\
        near point pos = true /\
        Forall (fun e => near (snd e) pos = false) before
  | None => Forall (fun e => near (snd e) pos = false) items
  end.
Proof.
  induction items as [|[k p] rest IH]; cbn [first_hit].
  - constructor.
  - destruct (near p pos) eqn:Hp.
    + exists [], p, rest. repeat split; auto.
    + destruct (first_hit rest pos) as [c|].
      * destruct IH as (before & q & after & -> & Hq & Hb).
        exists ((k, p) :: before), q, after. repeat split; auto.
      * constructor; auto.
Qed.

Lemma _update_cursor_for_corner_eq (corner : string) (w : Widget) :
  _update_cursor_for_corner corner w = with_cursor (cursor_for corner) w.
Proof.
  unfold cursor_for, _update_cursor_for_corner.
  destruct (String.eqb corner "top-middle"); [reflexivity|].
  destruct (String.eqb corner "top-left" || String.eqb corner "bottom-right");
    reflexivity.
Qed.

(** C6. For every pointer position the hit-test of the press and move
    handlers picks the first anchor, in the order top-left, top-right,
    bottom-left, bottom-right, top-middle, whose point is within 14 pixels
    of the pointer on each axis: every anchor before the chosen one is out
    of range, and with no anchor in range the press changes nothing and the
    move sets the arrow cursor.  No distance between anchors is compared. *)
Theorem hit_test_first_match (w : Widget) (pos : QPoint) :
  map fst (corners (focus_rect w)) =
    ["top-left"; "top-right"; "bottom-left"; "bottom-right"; "top-middle"] /\
  (forall point, near point pos = true <->
     Z.abs (px point - px pos) <= 14 /\ Z.abs (py point - py pos) <= 14) /\
  match first_hit (corners (focus_rect w)) pos with
  | Some corner =>
      (exists before point after,
         corners (focus_rect w) = (before ++ (corner, point) :: after)%list /\
         near point pos = true /\
         Forall (fun e => near (snd e) pos = false) before) /\
      dragging (mousePressEvent pos w) = true /\
      drag_corner (mousePressEvent pos w) = Some corner /\
      (dragging w = false ->
       mouseMoveEvent pos w = Some (with_cursor (cursor_for corner) w))
  | None =>
      Forall (fun e => near (snd e) pos = false) (corners (focus_rect w)) /\
      mousePressEvent pos w = w /\
      (dragging w = false ->
       mouseMoveEvent pos w = Some (with_cursor ArrowCursor w))
  end.
Proof.
  split; [reflexivity|]. split; [intro; apply near_spec|].
  pose proof (first_hit_spec (corners (focus_rect w)) pos) as Hspec.
  unfold mousePressEvent, mouseMoveEvent.
  destruct (first_hit (corners (focus_rect w)) pos) as [corner|].
  - split; [exact Hspec|]. repeat split.
    intros ->. now rewrite _update_cursor_for_corner_eq.
  - split; [exact Hspec|]. split; [reflexivity|].
    intros ->. reflexivity.
Qed.

(** Two anchors in range: the earlier one wins although the pointer is
    closer to the later one. *)
Example first_hit_ignores_distance :
  let r := mkRect 0 0 20 20 in
  let pos := mkPoint 12 0 in
  first_hit (corners r) pos = Some "top-left" /\
  near (topRight r) pos = true /\
  Z.abs (px (topRight r) - px pos) < Z.abs (px (topLeft r) - px pos).
Proof. vm_compute. repeat split. Qed.

(** ** What every reachable state satisfies *)

Lemma first_hit_is_anchor (r : QRect) (pos : QPoint) (k : string) :
  first_hit (corners r) pos = Some k -> exists c, k = corner_name c.
Proof.
  unfold corners. cbn [first_hit].
  repeat match goal with
  | |- context [if near ?p pos then _ else _] => destruct (near p pos)
  end;
  intros [= <-];
  [ exists TopLeft | exists TopRight | exists BottomLeft
  | exists BottomRight | exists TopMiddle ]; reflexivity.
Qed.

Lemma consistent_init : consistent init.
Proof.
  constructor; cbn; unfold smooth_scroll_steps;
    try (open_rect; lia); try discriminate; reflexivity.
Qed.

Lemma consistent_mousePressEvent (pos : QPoint) (w : Widget) :
  consistent w -> consistent (mousePressEvent pos w).
Proof.
  intros [Hw Hh Hd Hs Hc Ht Hf]. unfold mousePressEvent.
  destruct (first_hit (corners (focus_rect w)) pos) as [k|] eqn:Hk.
  - destruct (first_hit_is_anchor _ _ _ Hk) as [c ->].
    constructor; cbn; auto.
    intros _. exists c, pos. auto.
  - constructor; auto.
Qed.

Lemma consistent_mouseMoveEvent (pos : QPoint) (w w' : Widget) :
  consistent w -> mouseMoveEvent pos w = Some w' -> consistent w'.
Proof.
  intros Hcons. unfold mouseMoveEvent.
  destruct (dragging w) eqn:Hdrag.
  - destruct (drag_recorded w Hcons Hdrag)
      as (c & start & -> & -> & How & Hoh).
    intros [= <-].
    destruct (resize_at_least_minimum (original_rect w)
                (px pos - px start) (py pos - py start) c How Hoh).
    destruct Hcons as [Hw Hh Hd Hs Hc Ht Hf].
    constructor; cbn; auto.
  - assert (forall v, consistent (with_cursor v w)) as Hcur.
    { intro v. destruct Hcons as [Hw Hh Hd Hs Hc Ht Hf].
      constructor; cbn; auto. }
    destruct (first_hit (corners (focus_rect w)) pos) as [k|];
      intros [= <-]; [rewrite _update_cursor_for_corner_eq|]; apply Hcur.
Qed.

Lemma consistent_mouseReleaseEvent (w : Widget) :
  consistent w -> consistent (mouseReleaseEvent w).
Proof.
  intros Hcons. unfold mouseReleaseEvent.
  destruct (dragging w) eqn:Hdrag; [|assumption].
  destruct Hcons as [Hw Hh Hd Hs Hc Ht Hf].
  constructor; cbn; auto; discriminate.
Qed.

Lemma consistent_toggle_auto_scroll (w : Widget) :
  consistent w -> consistent (toggle_auto_scroll w).
Proof.
  intros [Hw Hh Hd Hs Hc Ht Hf]. unfold toggle_auto_scroll.
  destruct (auto_scrolling w) eqn:Ha; cbn;
    constructor; cbn; auto; try discriminate.
  unfold smooth_scroll_steps. lia.
Qed.

Lemma consistent_keyPressEvent (key : Key) (w : Widget) :
  consistent w -> consistent (keyPressEvent key w).
Proof.
  intros Hcons.
  destruct key; cbn [keyPressEvent];
    try (apply consistent_toggle_auto_scroll; assumption);
    try assumption;
    destruct Hcons as [Hw Hh Hd Hs Hc Ht Hf];
    try (destruct (Z.gtb_spec (scroll_speed w) 0));
    constructor; cbn; auto; lia.
Qed.

Lemma consistent_perform_smooth_scroll (available : bool) (inj : Injection)
    (w : Widget) :
  consistent w -> consistent (perform_smooth_scroll available inj w).
Proof.
  intros [Hw Hh Hd Hs Hc Ht Hf]. unfold perform_smooth_scroll.
  destruct (negb (auto_scrolling w) || negb available).
  - constructor; cbn; auto. discriminate.
  - destruct inj as [|e].
    + cbn [current_smooth_step with_posted with_current_smooth_step].
      unfold smooth_scroll_steps in *.
      destruct (Z.geb_spec (current_smooth_step w + 1) 50);
        constructor; cbn; auto; unfold smooth_scroll_steps; lia.
    + constructor; cbn; auto. discriminate.
Qed.

Lemma consistent_dispatch (available : bool) (e : Event) (w w' : Widget) :
  consistent w -> dispatch available e w = Some w' -> consistent w'.
Proof.
  intros Hcons. destruct e; cbn [dispatch].
  - apply consistent_mouseMoveEvent; assumption.
  - intros [= <-]. apply consistent_mousePressEvent; assumption.
  - intros [= <-]. apply consistent_mouseReleaseEvent; assumption.
  - intros [= <-]. apply consistent_keyPressEvent; assumption.
  - intros [= <-]. apply consistent_perform_smooth_scroll; assumption.
Qed.

Lemma reachable_consistent (available : bool) (w : Widget) :
  reachable available w -> consistent w.
Proof.
  induction 1 as [|e w w' _ IH _ Hstep].
  - apply consistent_init.
  - eapply consistent_dispatch; eassumption.
Qed.

(** No handler raises in a reachable state. *)
Lemma dispatch_total (available : bool) (e : Event) (w : Widget) :
  reachable available w -> exists w', dispatch available e w = Some w'.
Proof.
  intros Hreach. apply reachable_consistent in Hreach.
  destruct e; cbn [dispatch]; eauto.
  unfold mouseMoveEvent.
  destruct (dragging w) eqn:Hdrag.
  - destruct (drag_recorded w Hreach Hdrag) as (c & start & -> & -> & _).
    eauto.
  - destruct (first_hit (corners (focus_rect w)) pos); eauto.
Qed.

Lemma run_reachable (available : bool) (es : list Event) (w w' : Widget) :
  reachable available w -> run available es w = Some w' ->
  reachable available w'.
Proof.
  revert w. induction es as [|e rest IH]; intros w Hreach; cbn [run].
  - intros [= <-]. assumption.
  - destruct (deliverable e w) eqn:Hdel; [|apply IH; assumption].
    destruct (dispatch available e w) as [w1|] eqn:Hstep; [|discriminate].
    apply IH. eapply reach_step; eassumption.
Qed.

(** ** Scroll speed *)

(** C7. For a nonzero speed, [+] and [=] raise the absolute value by one
    and keep the sign; [-] lowers the absolute value by one but not below
    one and keeps the sign; [Space] negates the speed and keeps its
    absolute value.  From the initial speed -1, a flip gives 1 and an
    increase after it gives 2. *)
Theorem speed_commands (w : Widget) :
  scroll_speed w <> 0 ->
  let s := scroll_speed w in
  let after key := scroll_speed (keyPressEvent key w) in
  (Z.abs (after Key_Plus) = Z.abs s + 1 /\ Z.sgn (after Key_Plus) = Z.sgn s) /\
  (Z.abs (after Key_Equal) = Z.abs s + 1 /\
   Z.sgn (after Key_Equal) = Z.sgn s) /\
  (Z.abs (after Key_Minus) = Z.max 1 (Z.abs s - 1) /\
   1 <= Z.abs (after Key_Minus) /\
   Z.sgn (after Key_Minus) = Z.sgn s) /\
  (after Key_Space = - s /\ Z.abs (after Key_Space) = Z.abs s) /\
  (scroll_speed init = -1 /\
   scroll_speed (keyPressEvent Key_Space init) = 1 /\
   scroll_speed (keyPressEvent Key_Plus (keyPressEvent Key_Space init)) = 2).
Proof.
  intros Hs s after. subst s after. cbv beta.
  cbn [keyPressEvent].
  destruct (Z.gtb_spec (scroll_speed w) 0);
    cbn [scroll_speed with_scroll_speed with_last_action];
    repeat split; try reflexivity; lia.
Qed.

Lemma speed_commands_witness :
  scroll_speed init <> 0 /\
  Z.abs (scroll_speed (keyPressEvent Key_Minus init)) = 1.
Proof.
  split.
  - cbn. discriminate.
  - pose proof (speed_commands init) as H. cbv zeta in H.
    destruct H as (_ & _ & (H & _) & _).
    + cbn. discriminate.
    + exact H.
Defined.

(** ** Auto-scroll *)

(** After one toggle the timer and the click-through attribute equal the
    new flag, whatever they were before. *)
Lemma toggle_auto_scroll_flags (w : Widget) :
  scroll_flags (toggle_auto_scroll w) =
  (negb (auto_scrolling w), negb (auto_scrolling w), negb (auto_scrolling w)).
Proof.
  unfold toggle_auto_scroll, scroll_flags.
  destruct (auto_scrolling w); reflexivity.
Qed.

Lemma toggle_twice_flags (w : Widget) :
  scroll_flags (toggle_auto_scroll (toggle_auto_scroll w)) =
  (auto_scrolling w, auto_scrolling w, auto_scrolling w).
Proof.
  rewrite toggle_auto_scroll_flags.
  assert (auto_scrolling (toggle_auto_scroll w) = negb (auto_scrolling w))
    as ->.
  { pose proof (toggle_auto_scroll_flags w) as H. unfold scroll_flags in H.
    congruence. }
  now rewrite negb_involutive.
Qed.

(** C8, as stated, fails: in [stalled], a state the event loop reaches, the
    flag is set and the timer is stopped; two toggles later the timer
    runs. *)
Lemma toggle_twice_counterexample :
  run false [KeyPress Key_S; TimerTick Posts] init = Some stalled /\
  scroll_flags stalled = (true, false, true) /\
  scroll_flags (toggle_auto_scroll (toggle_auto_scroll stalled))
    = (true, true, true) /\
  scroll_flags (toggle_auto_scroll (toggle_auto_scroll stalled))
    <> scroll_flags stalled.
Proof. repeat split. discriminate. Qed.

(** C8, amended. From a state whose timer-running state and click-through
    attribute both equal the auto-scrolling flag, two toggles return the
    flag, the timer-running state and the click-through attribute to what
    they were. *)
Theorem toggle_twice_restores (w : Widget) :
  isActive (smooth_scroll_timer w) = auto_scrolling w ->
  WA_TransparentForMouseEvents (focus_area w) = auto_scrolling w ->
  scroll_flags (toggle_auto_scroll (toggle_auto_scroll w)) = scroll_flags w.
Proof.
  intros Ht Hf. rewrite toggle_twice_flags.
  unfold scroll_flags. now rewrite Ht, Hf.
Qed.

Lemma toggle_twice_restores_witness :
  (isActive (smooth_scroll_timer init) = auto_scrolling init /\
   WA_TransparentForMouseEvents (focus_area init) = auto_scrolling init) /\
  scroll_flags (toggle_auto_scroll (toggle_auto_scroll init))
    = scroll_flags init.
Proof.
  split.
  - split; reflexivity.
  - apply (toggle_twice_restores init); reflexivity.
Defined.

(** The hypotheses of the amended C8 are also necessary. *)
Lemma toggle_twice_restores_iff (w : Widget) :
  scroll_flags (toggle_auto_scroll (toggle_auto_scroll w)) = scroll_flags w
  <->
  isActive (smooth_scroll_timer w) = auto_scrolling w /\
  WA_TransparentForMouseEvents (focus_area w) = auto_scrolling w.
Proof.
  rewrite toggle_twice_flags. unfold scroll_flags. split.
  - intros [= H1 H2]. auto.
  - intros [-> ->]. reflexivity.
Qed.

(** The scroll delta a tick posts is the speed itself. *)
Lemma posted_delta (s : Z) :
  (if s >? 0 then Z.abs s * 1 else - (Z.abs s * 1)) = s.
Proof. destruct (Z.gtb_spec s 0); lia. Qed.

(** C9. In a reachable state with auto-scroll enabled, the macOS modules
    present and the CoreGraphics calls returning, a tick posts exactly one
    scroll event, of magnitude [|scroll_speed|] and with the sign of
    [scroll_speed], and then advances the step counter modulo 50; turning
    auto-scroll on starts the timer with a period of
    [scroll_interval / smooth_scroll_steps] = 10000 / 50 = 200 ms. *)
Theorem tick_posts_one_event (w0 w : Widget) :
  auto_scrolling w0 = false ->
  reachable true w ->
  auto_scrolling w = true ->
  let w' := perform_smooth_scroll true Posts w in
  (exists delta,
     posted w' = (posted w ++ [delta])%list /\
     Z.abs delta = Z.abs (scroll_speed w) /\
     Z.sgn delta = Z.sgn (scroll_speed w)) /\
  current_smooth_step w' = (current_smooth_step w + 1) mod 50 /\
  smooth_scroll_timer w' = smooth_scroll_timer w /\
  auto_scrolling w' = true /\
  smooth_scroll_timer (toggle_auto_scroll w0)
    = {| isActive := true; interval := scroll_interval / smooth_scroll_steps |}
  /\ scroll_interval / smooth_scroll_steps = 200.
Proof.
  intros Hidle Hreach Hon w'. subst w'.
  apply reachable_consistent in Hreach.
  destruct (step_in_range w Hreach) as [Hlo Hhi].
  unfold smooth_scroll_steps in Hhi.
  unfold perform_smooth_scroll. rewrite Hon. cbn [negb orb].
  rewrite posted_delta.
  cbn [current_smooth_step with_posted with_current_smooth_step].
  split; [|split; [|split; [|split; [|split]]]].
  - exists (scroll_speed w).
    destruct (current_smooth_step w + 1 >=? smooth_scroll_steps);
      repeat split.
  - unfold smooth_scroll_steps.
    destruct (Z.geb_spec (current_smooth_step w + 1) 50); cbn.
    + replace (current_smooth_step w + 1) with 50 by lia. reflexivity.
    + rewrite Z.mod_small by lia. reflexivity.
  - destruct (current_smooth_step w + 1 >=? smooth_scroll_steps);
      reflexivity.
  - destruct (current_smooth_step w + 1 >=? smooth_scroll_steps); exact Hon.
  - unfold toggle_auto_scroll. cbn [auto_scrolling with_auto_scrolling].
    rewrite Hidle. reflexivity.
  - reflexivity.
Qed.

Lemma tick_posts_one_event_witness :
  let w := toggle_auto_scroll init in
  let w' := perform_smooth_scroll true Posts w in
  (auto_scrolling init = false /\ reachable true w /\
   auto_scrolling w = true) /\
  posted w' = [-1] /\ current_smooth_step w' = 1 /\
  interval (smooth_scroll_timer w) = 200.
Proof.
  cbv zeta.
  assert (reachable true (toggle_auto_scroll init)) as Hreach.
  { apply (reach_step true (KeyPress Key_S) init);
      [apply reach_init | reflexivity | reflexivity]. }
  split; [repeat split; assumption|].
  destruct (tick_posts_one_event init (toggle_auto_scroll init)
              eq_refl Hreach eq_refl)
    as ((delta & Hposted & _) & Hstep & _ & _ & Htimer & Hperiod).
  split; [reflexivity|]. split.
  - rewrite Hstep. reflexivity.
  - rewrite Htimer. exact Hperiod.
Defined.

(** *** A failing injection *)

(** When the CoreGraphics calls raise during a tick of an enabled
    auto-scroll, the handler logs and stops the timer, and that is all: the
    flag, and with it the status line and the click-through attribute,
    stay as they were. *)
Lemma raise_stops_timer_only (e : string) (w : Widget) :
  auto_scrolling w = true ->
  let w' := perform_smooth_scroll true (Raises e) w in
  warnings w' =
    (warnings w ++ [("Failed to send smooth scroll event: " ++ e)%string])%list
  /\
  isActive (smooth_scroll_timer w') = false /\
  posted w' = posted w /\
  auto_scrolling w' = true /\
  focus_area w' = focus_area w /\
  nth 3 (info_display w') "" = "S: Auto-Scroll [ON]".
Proof.
  intros Hon. cbv zeta. unfold perform_smooth_scroll, info_display.
  rewrite Hon. cbn. rewrite Hon. repeat split.
Qed.

(** C1. Auto-scroll is turned on and the first tick's injection raises:
    the warning is logged and the timer halted, but [auto_scrolling] is
    still true and the status line still reads ON, where the claim has the
    state back at IDLE and the line at OFF. *)
Theorem injection_failure_keeps_flag :
  let w := perform_smooth_scroll true (Raises "boom") (toggle_auto_scroll init) in
  run true [KeyPress Key_S; TimerTick (Raises "boom")] init = Some w /\
  warnings w = ["Failed to send smooth scroll event: boom"] /\
  isActive (smooth_scroll_timer w) = false /\
  posted w = [] /\
  auto_scrolling w = true /\
  nth 3 (info_display w) "" = "S: Auto-Scroll [ON]".
Proof.
  cbv zeta. split; [reflexivity|].
  destruct (raise_stops_timer_only "boom" (toggle_auto_scroll init) eq_refl)
    as (Hwarn & Htimer & Hposted & Hflag & _ & Hline).
  repeat split; assumption.
Qed.

(** *** Without the macOS modules *)






(** ** Dragging *)

(** A move during a drag reads the snapshot, the start position and the
    corner, and writes the focus rectangle only. *)
Lemma drag_move (p start : QPoint) (corner : string) (w : Widget) :
  dragging w = true ->
  drag_start_pos w = Some start ->
  drag_corner w = Some corner ->
  mouseMoveEvent p w =
    Some (with_focus_rect
            (_update_rect_dimensions (original_rect w)
               (px p - px start) (py p - py start) corner) w).
Proof.
  intros Hd Hs Hc. unfold mouseMoveEvent. now rewrite Hd, Hs, Hc.
Qed.

Lemma drag_moves (path : list QPoint) (p start : QPoint) (corner : string) :
  forall w,
    dragging w = true ->
    drag_start_pos w = Some start ->
    drag_corner w = Some corner ->
    exists w',
      moves (path ++ [p]) w = Some w' /\
      focus_rect w' =
        _update_rect_dimensions (original_rect w)
          (px p - px start) (py p - py start) corner.
Proof.
  induction path as [|q rest IH]; intros w Hd Hs Hc; cbn [moves app].
  - rewrite (drag_move p start corner w Hd Hs Hc). eauto.
  - rewrite (drag_move q start corner w Hd Hs Hc).
    apply (IH (with_focus_rect _ w)); assumption.
Qed.

(** C10. After a press on an anchor, the focus rectangle after any
    sequence of pointer moves is the resize of the rectangle at the press
    by the displacement of the last position from the press position; the
    moves before the last do not matter.  So from a rectangle of at least
    the minimum size, any moves followed by a move back to the press
    position give the rectangle at the press again. *)
Theorem drag_depends_on_net_displacement (w : Widget) (start : QPoint)
    (corner : string) (path : list QPoint) (p : QPoint) :
  first_hit (corners (focus_rect w)) start = Some corner ->
  (exists w',
     moves (path ++ [p]) (mousePressEvent start w) = Some w' /\
     focus_rect w' =
       _update_rect_dimensions (focus_rect w)
         (px p - px start) (py p - py start) corner) /\
  (100 <= width (focus_rect w) -> 100 <= height (focus_rect w) ->
   exists w',
     moves (path ++ [start]) (mousePressEvent start w) = Some w' /\
     focus_rect w' = focus_rect w).
Proof.
  intros Hhit.
  assert (forall q, exists w',
            moves (path ++ [q]) (mousePressEvent start w) = Some w' /\
            focus_rect w' =
              _update_rect_dimensions (focus_rect w)
                (px q - px start) (py q - py start) corner) as Hmoves.
  { intro q.
    destruct (drag_moves path q start corner (mousePressEvent start w))
      as (w' & Hrun & Hrect);
      try (unfold mousePressEvent; rewrite Hhit; reflexivity).
    exists w'. split; [assumption|].
    rewrite Hrect. unfold mousePressEvent. rewrite Hhit. reflexivity. }
  split; [apply Hmoves|].
  intros Hw Hh. destruct (Hmoves start) as (w' & Hrun & Hrect).
  exists w'. split; [assumption|].
  destruct (first_hit_is_anchor _ _ _ Hhit) as [c ->].
  rewrite Hrect, !Z.sub_diag. apply resize_zero; assumption.
Qed.

Lemma drag_depends_on_net_displacement_witness :
  let start := mkPoint 200 150 in
  first_hit (corners (focus_rect init)) start = Some "top-left" /\
  option_map focus_rect
    (moves [mkPoint 1000 700] (mousePressEvent start init))
    = Some (mkRect 900 550 100 100) /\
  exists w',
    moves ([mkPoint 1000 700] ++ [start]) (mousePressEvent start init)
      = Some w' /\
    focus_rect w' = focus_rect init.
Proof.
  cbv zeta. split; [reflexivity|]. split; [reflexivity|].
  apply (drag_depends_on_net_displacement init (mkPoint 200 150) "top-left"
           [mkPoint 1000 700] (mkPoint 200 150) eq_refl);
    open_rect; cbn; lia.
Defined.

(** In a running overlay the size condition of the round trip holds by
    itself: every reachable focus rectangle is at least the minimum size. *)
Corollary drag_round_trip_reachable (available : bool) (w : Widget)
    (start : QPoint) (corner : string) (path : list QPoint) :
  reachable available w ->
  first_hit (corners (focus_rect w)) start = Some corner ->
  exists w',
    moves (path ++ [start]) (mousePressEvent start w) = Some w' /\
    focus_rect w' = focus_rect w.
Proof.
  intros Hreach Hhit. apply reachable_consistent in Hreach.
  destruct (drag_moves path start start corner (mousePressEvent start w))
    as (w' & Hrun & Hrect);
    try (unfold mousePressEvent; rewrite Hhit; reflexivity).
  exists w'. split; [assumption|].
  destruct (first_hit_is_anchor _ _ _ Hhit) as [c ->].
  rewrite Hrect, !Z.sub_diag.
  unfold mousePressEvent. rewrite Hhit. cbn [original_rect with_drag
    with_last_action with_focus_area].
  apply resize_zero; [apply (rect_wide w Hreach) | apply (rect_high w Hreach)].
Qed.

(** * Further properties of the handlers *)

(** ** Runs of the event loop *)

Lemma run_app (available : bool) (es1 es2 : list Event) (w : Widget) :
  run available (es1 ++ es2) w =
  match run available es1 w with
  | Some w1 => run available es2 w1
  | None => None
  end.
Proof.
  revert w. induction es1 as [|e rest IH]; intros w; cbn [run app].
  - reflexivity.
  - destruct (deliverable e w); [|apply IH].
    destruct (dispatch available e w); [apply IH | reflexivity].
Qed.

Lemma run_from_reachable (available : bool) (es : list Event) :
  forall w, reachable available w ->
  exists w', run available es w = Some w'.
Proof.
  induction es as [|e rest IH]; intros w Hreach; cbn [run].
  - eauto.
  - destruct (deliverable e w) eqn:Hdel; [|apply IH; assumption].
    destruct (dispatch_total available e w Hreach) as (w1 & Hstep).
    rewrite Hstep. apply IH. eapply reach_step; eassumption.
Qed.

Lemma run_init_consistent (available : bool) (es : list Event) (w : Widget) :
  run available es init = Some w -> consistent w.
Proof.
  intros Hrun. apply (reachable_consistent available).
  eapply run_reachable; [apply reach_init | eassumption].
Qed.

Lemma arranged_init : arranged init.
Proof.
  constructor; cbn; auto; discriminate.
Qed.

Lemma arranged_dispatch (available : bool) (e : Event) (w w' : Widget) :
  consistent w -> arranged w ->
  dispatch available e w = Some w' -> arranged w'.
Proof.
  intros Hcons Harr.
  destruct e as [pos|pos| |key|inj]; cbn [dispatch].
  - unfold mouseMoveEvent. destruct (dragging w) eqn:Hdrag.
    + destruct (drag_start_pos w), (drag_corner w); try discriminate.
      intros [= <-]. destruct Harr as [Hhint Hfollow Hhidden Hperiod Hposted].
      constructor; cbn; auto; try (rewrite Hdrag; discriminate).
    + destruct Harr as [Hhint Hfollow Hhidden Hperiod Hposted].
      destruct (first_hit (corners (focus_rect w)) pos);
        intros [= <-]; [rewrite _update_cursor_for_corner_eq|];
        constructor; cbn; auto.
  - intros [= <-]. unfold mousePressEvent.
    destruct (first_hit (corners (focus_rect w)) pos); [|assumption].
    destruct Harr as [Hhint Hfollow Hhidden Hperiod Hposted].
    constructor; cbn; auto; try discriminate.
  - intros [= <-]. unfold mouseReleaseEvent.
    destruct (dragging w) eqn:Hdrag; [|assumption].
    destruct Harr as [Hhint Hfollow Hhidden Hperiod Hposted].
    constructor; cbn; auto; try discriminate.
  - intros [= <-].
    destruct Harr as [Hhint Hfollow Hhidden Hperiod Hposted].
    destruct key; cbn [keyPressEvent];
      try (constructor; cbn; auto; fail).
    + unfold toggle_auto_scroll.
      destruct (auto_scrolling w); constructor; cbn; auto; discriminate.
    + destruct (scroll_speed w >? 0); constructor; cbn; auto.
    + destruct (scroll_speed w >? 0); constructor; cbn; auto.
    + destruct (scroll_speed w >? 0); constructor; cbn; auto.
  - intros [= <-].
    destruct Harr as [Hhint Hfollow Hhidden Hperiod Hposted].
    unfold perform_smooth_scroll.
    destruct (negb (auto_scrolling w) || negb available).
    + constructor; cbn; auto; try discriminate.
    + destruct inj as [|msg].
      * rewrite posted_delta.
        cbn [current_smooth_step with_posted with_current_smooth_step].
        pose proof (speed_nonzero w Hcons) as Hs.
        assert (Forall (fun d => d <> 0) (posted w ++ [scroll_speed w]))
          as Hall.
        { apply Forall_app. split; [assumption|]. constructor; auto. }
        destruct (current_smooth_step w + 1 >=? smooth_scroll_steps);
          constructor; cbn; auto.
      * constructor; cbn; auto; try discriminate.
Qed.

Lemma run_arranged (available : bool) (es : list Event) :
  forall w w', consistent w -> arranged w ->
  run available es w = Some w' -> consistent w' /\ arranged w'.
Proof.
  induction es as [|e rest IH]; intros w w' Hcons Harr; cbn [run].
  - intros [= <-]. auto.
  - destruct (deliverable e w); [|apply IH; assumption].
    destruct (dispatch available e w) as [w1|] eqn:Hstep; [|discriminate].
    apply IH.
    + eapply consistent_dispatch; eassumption.
    + eapply arranged_dispatch; eassumption.
Qed.

Lemma run_init_arranged (available : bool) (es : list Event) (w : Widget) :
  run available es init = Some w -> arranged w.
Proof.
  intros Hrun.
  apply (run_arranged available es init w consistent_init arranged_init Hrun).
Qed.

(** ** Invariants of a run from the initial state *)

(** X1. Whatever events the overlay receives, no handler raises: a pointer
    move during a drag always finds the start position and the corner that
    the press recorded. *)
Theorem run_never_raises (available : bool) (es : list Event) :
  exists w, run available es init = Some w /\ reachable available w.
Proof.
  destruct (run_from_reachable available es init (reach_init available))
    as (w & Hrun).
  exists w. split; [assumption|].
  eapply run_reachable; [apply reach_init | eassumption].
Qed.

(** X2. After any run of events the focus rectangle is at least 100 wide
    and 100 high, and so is the snapshot a drag in progress works from. *)
Theorem focus_rect_never_below_minimum (available : bool)
    (es : list Event) (w : Widget) :
  run available es init = Some w ->
  (100 <= width (focus_rect w) /\ 100 <= height (focus_rect w)) /\
  (dragging w = true ->
   100 <= width (original_rect w) /\ 100 <= height (original_rect w)).
Proof.
  intros Hrun. apply run_init_consistent in Hrun.
  split.
  - split; [apply (rect_wide w Hrun) | apply (rect_high w Hrun)].
  - intros Hdrag.
    destruct (drag_recorded w Hrun Hdrag) as (_ & _ & _ & _ & Hw & Hh).
    auto.
Qed.

Lemma focus_rect_never_below_minimum_witness :
  let es := [MousePress (mkPoint 200 150); MouseMove (mkPoint 1000 700)] in
  exists w,
    run true es init = Some w /\
    focus_rect w = mkRect 900 550 100 100 /\
    100 <= width (focus_rect w) /\ 100 <= height (focus_rect w).
Proof.
  cbv zeta.
  destruct (run true [MousePress (mkPoint 200 150);
                      MouseMove (mkPoint 1000 700)] init)
    as [w|] eqn:Hrun; [|vm_compute in Hrun; discriminate].
  exists w. split; [reflexivity|]. split.
  - vm_compute in Hrun. injection Hrun as <-. reflexivity.
  - apply (focus_rect_never_below_minimum true _ w Hrun).
Defined.

(** X3. After any run of events the scroll speed is not zero, and no
    scroll event with a zero delta has been posted. *)
Theorem speed_never_zero (available : bool) (es : list Event) (w : Widget) :
  run available es init = Some w ->
  scroll_speed w <> 0 /\ Forall (fun d => d <> 0) (posted w).
Proof.
  intros Hrun. split.
  - apply (speed_nonzero w (run_init_consistent _ _ _ Hrun)).
  - apply (posted_nonzero w (run_init_arranged _ _ _ Hrun)).
Qed.

Lemma speed_never_zero_witness :
  let es := [KeyPress Key_Minus; KeyPress Key_S; TimerTick Posts;
             KeyPress Key_Space; TimerTick Posts] in
  exists w,
    run true es init = Some w /\
    posted w = [-1; 1] /\
    scroll_speed w <> 0 /\ Forall (fun d => d <> 0) (posted w).
Proof.
  cbv zeta.
  destruct (run true [KeyPress Key_Minus; KeyPress Key_S; TimerTick Posts;
                      KeyPress Key_Space; TimerTick Posts] init)
    as [w|] eqn:Hrun; [|vm_compute in Hrun; discriminate].
  exists w. split; [reflexivity|]. split.
  - vm_compute in Hrun. injection Hrun as <-. reflexivity.
  - apply (speed_never_zero true _ w Hrun).
Defined.

(** X4. After any run of events the child widget over the focus rectangle
    is hidden while a drag is in progress, and otherwise shown with the
    geometry of the focus rectangle. *)
Theorem focus_area_tracks_rect (available : bool) (es : list Event)
    (w : Widget) :
  run available es init = Some w ->
  if dragging w then fa_visible (focus_area w) = false
  else fa_geometry (focus_area w) = focus_rect w /\
       fa_focus_rect (focus_area w) = focus_rect w /\
       fa_visible (focus_area w) = true.
Proof.
  intros Hrun. apply run_init_arranged in Hrun.
  destruct (dragging w) eqn:Hdrag.
  - apply (area_hidden w Hrun Hdrag).
  - apply (area_follows w Hrun Hdrag).
Qed.

Lemma focus_area_tracks_rect_witness :
  let es := [MousePress (mkPoint 999 649); MouseMove (mkPoint 1049 619);
             MouseRelease] in
  exists w,
    run true es init = Some w /\
    fa_geometry (focus_area w) = mkRect 200 150 850 470 /\
    if dragging w then fa_visible (focus_area w) = false
    else fa_geometry (focus_area w) = focus_rect w /\
         fa_focus_rect (focus_area w) = focus_rect w /\
         fa_visible (focus_area w) = true.
Proof.
  cbv zeta.
  destruct (run true [MousePress (mkPoint 999 649);
                      MouseMove (mkPoint 1049 619); MouseRelease] init)
    as [w|] eqn:Hrun; [|vm_compute in Hrun; discriminate].
  exists w. split; [reflexivity|]. split.
  - vm_compute in Hrun. injection Hrun as <-. reflexivity.
  - apply (focus_area_tracks_rect true _ w Hrun).
Defined.

(** X5. After any run of events a running timer means auto-scroll is on
    and the period is 200 ms, and the focus area is click-through exactly
    when auto-scroll is on. *)
Theorem timer_and_click_through (available : bool) (es : list Event)
    (w : Widget) :
  run available es init = Some w ->
  (isActive (smooth_scroll_timer w) = true ->
   auto_scrolling w = true /\ interval (smooth_scroll_timer w) = 200) /\
  WA_TransparentForMouseEvents (focus_area w) = auto_scrolling w.
Proof.
  intros Hrun.
  pose proof (run_init_consistent _ _ _ Hrun) as Hcons.
  pose proof (run_init_arranged _ _ _ Hrun) as Harr.
  split.
  - intros Hactive. split.
    + apply (timer_implies_flag w Hcons Hactive).
    + apply (timer_period w Harr Hactive).
  - apply (click_through_is_flag w Hcons).
Qed.

Lemma timer_and_click_through_witness :
  let es := [KeyPress Key_S; TimerTick Posts; KeyPress Key_Plus] in
  exists w,
    run true es init = Some w /\
    isActive (smooth_scroll_timer w) = true /\
    interval (smooth_scroll_timer w) = 200 /\
    WA_TransparentForMouseEvents (focus_area w) = auto_scrolling w.
Proof.
  cbv zeta.
  destruct (run true [KeyPress Key_S; TimerTick Posts; KeyPress Key_Plus]
              init)
    as [w|] eqn:Hrun; [|vm_compute in Hrun; discriminate].
  exists w. split; [reflexivity|].
  destruct (timer_and_click_through true _ w Hrun) as (Htimer & Hclick).
  assert (isActive (smooth_scroll_timer w) = true) as Hactive.
  { vm_compute in Hrun. injection Hrun as <-. reflexivity. }
  split; [exact Hactive|]. split; [apply Htimer; exact Hactive | exact Hclick].
Defined.

(** ** Keyboard commands *)

(** [open_widget] opens the handlers and field updates applied to a record
    of fields, leaving the integer operations alone. *)
Ltac open_widget :=
  cbv beta iota zeta delta
    [keyPressEvent toggle_auto_scroll
     with_always_on_top with_stays_on_top_hint with_focus_rect with_drag
     with_auto_scrolling with_timer with_scroll_speed
     with_current_smooth_step with_last_action with_focus_area with_cursor
     with_closed with_posted with_warnings
     always_on_top stays_on_top_hint focus_rect dragging drag_corner
     drag_start_pos original_rect auto_scrolling smooth_scroll_timer
     scroll_speed current_smooth_step last_action focus_area cursor closed
     posted warnings].

(** X6. Two presses of Space restore the whole state; only [last_action]
    is written, with the direction the speed had to begin with. *)
Theorem flip_twice (w : Widget) :
  keyPressEvent Key_Space (keyPressEvent Key_Space w) =
  with_last_action
    ("Changed scroll direction to "
       ++ (if scroll_speed w <? 0 then "DOWN" else "UP")) w.
Proof.
  destruct w. cbn. rewrite Z.opp_involutive. reflexivity.
Qed.

(** X7. On a nonzero speed, an increase followed by a decrease gives the
    state back.  The other order does not at magnitude 1, where the
    decrease does nothing: the speed ends at magnitude 2. *)
Theorem increase_then_decrease (w : Widget) :
  scroll_speed w <> 0 ->
  keyPressEvent Key_Minus (keyPressEvent Key_Plus w) = w /\
  (Z.abs (scroll_speed w) = 1 ->
   Z.abs (scroll_speed (keyPressEvent Key_Plus (keyPressEvent Key_Minus w)))
     = 2).
Proof.
  intros Hs. destruct w as [? ? ? ? ? ? ? ? ? s ? ? ? ? ? ? ?].
  cbn [scroll_speed] in Hs. open_widget. split.
  - destruct (Z.gtb_spec s 0) as [Hpos|Hneg]; open_widget.
    + destruct (Z.gtb_spec (s + 1) 0); [|lia].
      open_widget. f_equal. lia.
    + destruct (Z.gtb_spec (s - 1) 0); [lia|].
      open_widget. f_equal. lia.
  - intros Hone.
    destruct (Z.gtb_spec s 0) as [Hpos|Hneg]; open_widget.
    + destruct (Z.gtb_spec (Z.max 1 (s - 1)) 0); open_widget; lia.
    + destruct (Z.gtb_spec (Z.min (-1) (s + 1)) 0); open_widget; lia.
Qed.

Lemma increase_then_decrease_witness :
  scroll_speed init <> 0 /\
  keyPressEvent Key_Minus (keyPressEvent Key_Plus init) = init.
Proof.
  split.
  - cbn. discriminate.
  - apply (increase_then_decrease init). cbn. discriminate.
Defined.

Lemma decrease_step (available : bool) (w : Widget) :
  scroll_speed w <> 0 ->
  let w' := keyPressEvent Key_Minus w in
  Z.abs (scroll_speed w') = Z.max 1 (Z.abs (scroll_speed w) - 1) /\
  Z.sgn (scroll_speed w') = Z.sgn (scroll_speed w) /\
  scroll_speed w' <> 0.
Proof.
  intros Hs. cbv zeta. cbn [keyPressEvent].
  destruct (Z.gtb_spec (scroll_speed w) 0);
    cbn [scroll_speed with_scroll_speed]; lia.
Qed.

(** X8. [n] presses of Minus on a nonzero speed take the magnitude down by
    [n] but not below 1, and keep the sign: the speed never reaches zero
    and never changes direction, however often the key is pressed. *)
Theorem decrease_repeatedly (available : bool) (n : nat) (w : Widget) :
  scroll_speed w <> 0 ->
  exists w',
    run available (repeat (KeyPress Key_Minus) n) w = Some w' /\
    Z.abs (scroll_speed w') = Z.max 1 (Z.abs (scroll_speed w) - Z.of_nat n) /\
    Z.sgn (scroll_speed w') = Z.sgn (scroll_speed w).
Proof.
  revert w. induction n as [|n IH]; intros w Hs.
  - exists w. cbn [repeat run]. repeat split. lia.
  - destruct (decrease_step available w Hs) as (Habs & Hsgn & Hnz).
    destruct (IH (keyPressEvent Key_Minus w) Hnz) as (w' & Hrun & Habs' & Hsgn').
    exists w'. cbn [repeat run deliverable dispatch].
    split; [exact Hrun|]. split; lia.
Qed.

Lemma decrease_repeatedly_witness :
  let w := keyPressEvent Key_Plus (keyPressEvent Key_Plus init) in
  scroll_speed w = -3 /\
  exists w',
    run true (repeat (KeyPress Key_Minus) 5) w = Some w' /\
    Z.abs (scroll_speed w') = 1 /\
    Z.sgn (scroll_speed w') = -1.
Proof.
  cbv zeta. split; [reflexivity|].
  apply (decrease_repeatedly true 5
           (keyPressEvent Key_Plus (keyPressEvent Key_Plus init))).
  cbn. discriminate.
Defined.

(** X9. After any run of events the stays-on-top window hint equals
    [always_on_top], and two presses of T give the state back but for
    [last_action]. *)
Theorem always_on_top_round_trip (available : bool) (es : list Event)
    (w : Widget) :
  run available es init = Some w ->
  stays_on_top_hint w = always_on_top w /\
  keyPressEvent Key_T (keyPressEvent Key_T w) =
    with_last_action
      ("Always on top: " ++ (if always_on_top w then "ON" else "OFF")) w.
Proof.
  intros Hrun. apply run_init_arranged in Hrun.
  pose proof (hint_is_flag w Hrun) as Hhint. split; [exact Hhint|].
  destruct w; cbn in *. subst. rewrite negb_involutive. reflexivity.
Qed.

Lemma always_on_top_round_trip_witness :
  let es := [KeyPress Key_T] in
  exists w,
    run true es init = Some w /\
    always_on_top w = false /\
    stays_on_top_hint w = always_on_top w.
Proof.
  cbv zeta.
  destruct (run true [KeyPress Key_T] init)
    as [w|] eqn:Hrun; [|vm_compute in Hrun; discriminate].
  exists w. split; [reflexivity|]. split.
  - vm_compute in Hrun. injection Hrun as <-. reflexivity.
  - apply (always_on_top_round_trip true _ w Hrun).
Defined.

(** ** Ticks *)

Lemma tick_step (w : Widget) :
  auto_scrolling w = true ->
  0 <= current_smooth_step w < 50 ->
  let w' := perform_smooth_scroll true Posts w in
  posted w' = (posted w ++ [scroll_speed w])%list /\
  current_smooth_step w' = (current_smooth_step w + 1) mod 50 /\
  auto_scrolling w' = true /\
  smooth_scroll_timer w' = smooth_scroll_timer w /\
  scroll_speed w' = scroll_speed w /\
  warnings w' = warnings w.
Proof.
  intros Hon Hstep. cbv zeta. unfold perform_smooth_scroll.
  rewrite Hon. cbn [negb orb]. rewrite posted_delta.
  cbn [current_smooth_step with_posted with_current_smooth_step].
  unfold smooth_scroll_steps.
  destruct (Z.geb_spec (current_smooth_step w + 1) 50);
    cbn [posted current_smooth_step auto_scrolling smooth_scroll_timer
         scroll_speed warnings with_posted with_current_smooth_step];
    repeat split; auto.
  - replace (current_smooth_step w + 1) with 50 by lia. reflexivity.
  - rewrite Z.mod_small by lia. reflexivity.
Qed.

(** X10. With auto-scroll on, the timer running and the step counter in
    range, [n] ticks whose injection succeeds post [n] events, each with
    the current speed as delta, leave the counter at the old value plus [n]
    modulo 50, and leave the timer running and nothing logged. *)
Theorem ticks_post_speed (n : nat) (w : Widget) :
  auto_scrolling w = true ->
  isActive (smooth_scroll_timer w) = true ->
  0 <= current_smooth_step w < 50 ->
  exists w',
    run true (repeat (TimerTick Posts) n) w = Some w' /\
    posted w' = (posted w ++ repeat (scroll_speed w) n)%list /\
    current_smooth_step w' = (current_smooth_step w + Z.of_nat n) mod 50 /\
    auto_scrolling w' = true /\
    smooth_scroll_timer w' = smooth_scroll_timer w /\
    warnings w' = warnings w.
Proof.
  revert w. induction n as [|n IH]; intros w Hon Hactive Hstep.
  - exists w. cbn [repeat run]. rewrite app_nil_r, Z.add_0_r.
    rewrite Z.mod_small by lia. repeat split; auto.
  - destruct (tick_step w Hon Hstep)
      as (Hposted & Hcount & Hon' & Htimer & Hspeed & Hwarn).
    destruct (IH (perform_smooth_scroll true Posts w)) as
      (w' & Hrun & Hposted' & Hcount' & Hon'' & Htimer' & Hwarn').
    + exact Hon'.
    + rewrite Htimer. exact Hactive.
    + rewrite Hcount. apply Z.mod_pos_bound. lia.
    + exists w'. cbn [repeat run deliverable dispatch]. rewrite Hactive.
      split; [exact Hrun|].
      split; [|split; [|split; [|split]]].
      * rewrite Hposted', Hposted, Hspeed, <- app_assoc. reflexivity.
      * rewrite Hcount', Hcount, Nat2Z.inj_succ.
        rewrite Zplus_mod_idemp_l. f_equal. lia.
      * exact Hon''.
      * congruence.
      * congruence.
Qed.

Lemma ticks_post_speed_witness :
  let w := toggle_auto_scroll init in
  (auto_scrolling w = true /\
   isActive (smooth_scroll_timer w) = true /\
   0 <= current_smooth_step w < 50) /\
  exists w',
    run true (repeat (TimerTick Posts) 52) w = Some w' /\
    current_smooth_step w' = 2 /\
    List.length (posted w') = 52%nat.
Proof.
  cbv zeta. split.
  - cbn. repeat split; lia.
  - destruct (ticks_post_speed 52 (toggle_auto_scroll init))
      as (w' & Hrun & Hposted & Hcount & _).
    + reflexivity.
    + reflexivity.
    + cbn. lia.
    + exists w'. split; [exact Hrun|]. split.
      * rewrite Hcount. reflexivity.
      * rewrite Hposted. reflexivity.
Defined.

(** X11. When no event of a run is a tick whose injection raises, the run
    logs no warning. *)
Theorem warnings_only_from_raises (available : bool) (es : list Event) :
  forall w w',
    forallb (fun e => negb (raising e)) es = true ->
    run available es w = Some w' ->
    warnings w' = warnings w.
Proof.
  induction es as [|e rest IH]; intros w w' Hquiet; cbn [run].
  - intros [= <-]. reflexivity.
  - cbn [forallb] in Hquiet. apply andb_true_iff in Hquiet.
    destruct Hquiet as [He Hrest].
    destruct (deliverable e w); [|apply IH; assumption].
    destruct (dispatch available e w) as [w1|] eqn:Hstep; [|discriminate].
    intros Hrun. rewrite (IH _ _ Hrest Hrun).
    clear - He Hstep.
    destruct e as [pos|pos| |key|inj]; cbn [dispatch] in Hstep.
    + unfold mouseMoveEvent in Hstep. destruct (dragging w).
      * destruct (drag_start_pos w), (drag_corner w);
          try discriminate; injection Hstep as <-; reflexivity.
      * destruct (first_hit (corners (focus_rect w)) pos);
          injection Hstep as <-;
          [rewrite _update_cursor_for_corner_eq|]; reflexivity.
    + injection Hstep as <-. unfold mousePressEvent.
      destruct (first_hit (corners (focus_rect w)) pos); reflexivity.
    + injection Hstep as <-. unfold mouseReleaseEvent.
      destruct (dragging w); reflexivity.
    + injection Hstep as <-. destruct key; cbn [keyPressEvent];
        try reflexivity.
      * unfold toggle_auto_scroll. destruct (auto_scrolling w); reflexivity.
      * destruct (scroll_speed w >? 0); reflexivity.
      * destruct (scroll_speed w >? 0); reflexivity.
      * destruct (scroll_speed w >? 0); reflexivity.
    + injection Hstep as <-. unfold perform_smooth_scroll.
      destruct (negb (auto_scrolling w) || negb available); [reflexivity|].
      destruct inj; [|discriminate].
      cbn [current_smooth_step with_posted with_current_smooth_step].
      destruct (current_smooth_step w + 1 >=? smooth_scroll_steps);
        reflexivity.
Qed.

Lemma warnings_only_from_raises_witness :
  let es := [KeyPress Key_S; TimerTick Posts; MousePress (mkPoint 200 150);
             MouseRelease; KeyPress Key_S] in
  forallb (fun e => negb (raising e)) es = true /\
  exists w, run true es init = Some w /\ warnings w = warnings init.
Proof.
  cbv zeta. split; [reflexivity|].
  destruct (run true [KeyPress Key_S; TimerTick Posts;
                      MousePress (mkPoint 200 150); MouseRelease;
                      KeyPress Key_S] init)
    as [w|] eqn:Hrun; [|vm_compute in Hrun; discriminate].
  exists w. split; [reflexivity|].
  apply (warnings_only_from_raises true
           [KeyPress Key_S; TimerTick Posts; MousePress (mkPoint 200 150);
            MouseRelease; KeyPress Key_S] init w eq_refl Hrun).
Defined.

(** ** Resize in closed form *)

(** X12. The resize computation in closed form, for every rectangle and
    displacement: an edge named by the corner moves with the pointer, the
    new width is [max 100 (width -/+ dx)] and the new height
    [max 100 (height -/+ dy)], and the left or top coordinate is what keeps
    the opposite edge in place; top-middle adds the displacement to the
    position and keeps the size, also a size below the minimum. *)
Theorem resize_closed_form (rect : QRect) (dx dy : Z) :
  let Wl := Z.max 100 (width rect - dx) in
  let Wr := Z.max 100 (width rect + dx) in
  let Ht := Z.max 100 (height rect - dy) in
  let Hb := Z.max 100 (height rect + dy) in
  _update_rect_dimensions rect dx dy "top-left"
    = mkRect (x rect + width rect - Wl) (y rect + height rect - Ht) Wl Ht /\
  _update_rect_dimensions rect dx dy "top-right"
    = mkRect (x rect) (y rect + height rect - Ht) Wr Ht /\
  _update_rect_dimensions rect dx dy "bottom-left"
    = mkRect (x rect + width rect - Wl) (y rect) Wl Hb /\
  _update_rect_dimensions rect dx dy "bottom-right"
    = mkRect (x rect) (y rect) Wr Hb /\
  _update_rect_dimensions rect dx dy "top-middle"
    = mkRect (x rect + dx) (y rect + dy) (width rect) (height rect).
Proof.
  cbv zeta. destruct rect as [a b c d].
  repeat split; unfold_resize; split_comparisons; open_rect; f_equal; lia.
Qed.

(** X13. Moves by the top-middle anchor add up, and a move followed by the
    opposite move gives the rectangle back, whatever its size. *)
Theorem translate_composes (rect : QRect) (dx1 dy1 dx2 dy2 : Z) :
  _update_rect_dimensions
    (_update_rect_dimensions rect dx1 dy1 "top-middle") dx2 dy2 "top-middle"
    = _update_rect_dimensions rect (dx1 + dx2) (dy1 + dy2) "top-middle" /\
  _update_rect_dimensions
    (_update_rect_dimensions rect dx1 dy1 "top-middle")
    (- dx1) (- dy1) "top-middle"
    = rect.
Proof.
  destruct rect as [a b c d].
  split; unfold_resize; open_rect; f_equal; lia.
Qed.

(** ** One anchor in range *)

Lemma half_between (a : Z) : a - 1 <= 2 * (a ÷ 2) <= a + 1.
Proof.
  pose proof (Z.quot_rem' a 2) as Hq.
  pose proof (Z.rem_bound_abs a 2) as Hr.
  lia.
Qed.

Ltac near_to_bounds :=
  repeat match goal with
  | H : near _ _ = true |- _ =>
      apply near_spec in H;
      cbv beta delta [topLeft topRight bottomLeft bottomRight center top] in H;
      cbn [px py] in H
  end.

(** For a rectangle of at least the minimum size the five anchors are too
    far apart for two of them to be in range of one position. *)
Lemma first_hit_in_range (r : QRect) (pos : QPoint) (k : string)
    (point : QPoint) :
  100 <= width r -> 100 <= height r ->
  In (k, point) (corners r) ->
  (first_hit (corners r) pos = Some k <-> near point pos = true).
Proof.
  intros Hw Hh Hin.
  pose proof (half_between (x1 r + x2 r)) as Hhalf.
  unfold width in Hw. unfold height in Hh.
  unfold corners, center in *. cbn [In px] in Hin. cbn [first_hit px].
  destruct (near (topLeft r) pos) eqn:E1;
  destruct (near (topRight r) pos) eqn:E2;
  destruct (near (bottomLeft r) pos) eqn:E3;
  destruct (near (bottomRight r) pos) eqn:E4;
  destruct (near (mkPoint ((x1 r + x2 r) ÷ 2) (top r)) pos) eqn:E5;
  destruct Hin as [Hin|[Hin|[Hin|[Hin|[Hin|[]]]]]];
  injection Hin as <- <-;
  (split; intros Hgoal; try congruence);
  exfalso; near_to_bounds; lia.
Qed.

(** X14. After any run of events, the hit-test returns an anchor exactly
    when that anchor's point is within the threshold of the pointer: the
    focus rectangle is large enough for at most one anchor to be in range,
    so the order of the dictionary decides nothing. *)
Theorem hit_test_unique (available : bool) (es : list Event) (w : Widget)
    (pos : QPoint) (k : string) (point : QPoint) :
  run available es init = Some w ->
  In (k, point) (corners (focus_rect w)) ->
  (first_hit (corners (focus_rect w)) pos = Some k <->
   near point pos = true) /\
  (first_hit (corners (focus_rect w)) pos = None <->
   forall k' point', In (k', point') (corners (focus_rect w)) ->
                     near point' pos = false).
Proof.
  intros Hrun Hin. apply run_init_consistent in Hrun.
  pose proof (rect_wide w Hrun) as Hw. pose proof (rect_high w Hrun) as Hh.
  split; [apply first_hit_in_range; assumption|].
  split.
  - intros Hnone k' point' Hin'.
    destruct (near point' pos) eqn:Hnear; [|reflexivity].
    apply (first_hit_in_range _ pos k' point' Hw Hh Hin') in Hnear.
    congruence.
  - intros Hfar.
    destruct (first_hit (corners (focus_rect w)) pos) as [k'|] eqn:Hhit;
      [|reflexivity].
    pose proof (first_hit_spec (corners (focus_rect w)) pos) as Hspec.
    rewrite Hhit in Hspec.
    destruct Hspec as (before & point' & after & Heq & Hnear & _).
    rewrite (Hfar k' point') in Hnear; [discriminate|].
    rewrite Heq. apply in_or_app. right. left. reflexivity.
Qed.

Lemma hit_test_unique_witness :
  let es := [MousePress (mkPoint 200 150); MouseMove (mkPoint 300 250);
             MouseRelease] in
  exists w,
    run true es init = Some w /\
    focus_rect w = mkRect 300 250 700 400 /\
    In ("top-middle", mkPoint 649 250) (corners (focus_rect w)) /\
    (first_hit (corners (focus_rect w)) (mkPoint 660 260)
       = Some "top-middle" <->
     near (mkPoint 649 250) (mkPoint 660 260) = true).
Proof.
  cbv zeta.
  destruct (run true [MousePress (mkPoint 200 150);
                      MouseMove (mkPoint 300 250); MouseRelease] init)
    as [w|] eqn:Hrun; [|vm_compute in Hrun; discriminate].
  exists w. split; [reflexivity|].
  assert (focus_rect w = mkRect 300 250 700 400) as Hrect.
  { vm_compute in Hrun. injection Hrun as <-. reflexivity. }
  assert (In ("top-middle", mkPoint 649 250) (corners (focus_rect w)))
    as Hin.
  { rewrite Hrect. cbn. right. right. right. right. left. reflexivity. }
  split; [exact Hrect|]. split; [exact Hin|].
  apply (hit_test_unique true _ w (mkPoint 660 260) "top-middle"
           (mkPoint 649 250) Hrun Hin).
Defined.

(** X18. After any run of events and with no drag in progress, a pointer
    move changes the cursor and nothing else: the forward-diagonal cursor
    in range of top-left or bottom-right, the backward-diagonal cursor in
    range of top-right or bottom-left, the move cursor in range of
    top-middle, and the arrow in range of no anchor. *)
Theorem hover_cursor (available : bool) (es : list Event) (w : Widget)
    (pos : QPoint) :
  run available es init = Some w ->
  dragging w = false ->
  let r := focus_rect w in
  exists c,
    mouseMoveEvent pos w = Some (with_cursor c w) /\
    (near (topLeft r) pos = true \/ near (bottomRight r) pos = true ->
     c = SizeFDiagCursor) /\
    (near (topRight r) pos = true \/ near (bottomLeft r) pos = true ->
     c = SizeBDiagCursor) /\
    (near (mkPoint (px (center r)) (top r)) pos = true ->
     c = SizeAllCursor) /\
    ((forall k point, In (k, point) (corners r) -> near point pos = false) ->
     c = ArrowCursor).
Proof.
  intros Hrun Hidle r. subst r. apply run_init_consistent in Hrun.
  pose proof (rect_wide w Hrun) as Hw. pose proof (rect_high w Hrun) as Hh.
  assert (forall k point, In (k, point) (corners (focus_rect w)) ->
            near point pos = true ->
            first_hit (corners (focus_rect w)) pos = Some k) as Hpick.
  { intros k point Hin Hnear.
    apply (first_hit_in_range _ pos k point Hw Hh Hin). exact Hnear. }
  unfold mouseMoveEvent. rewrite Hidle.
  destruct (first_hit (corners (focus_rect w)) pos) as [k|] eqn:Hhit.
  - exists (cursor_for k).
    split; [now rewrite _update_cursor_for_corner_eq|].
    repeat split.
    + intros [Hn|Hn];
        [ pose proof (Hpick "top-left" _ (or_introl eq_refl) Hn) as Hk
        | pose proof (Hpick "bottom-right" _
                        (or_intror (or_intror (or_intror (or_introl eq_refl))))
                        Hn) as Hk ];
        injection Hk as ->; reflexivity.
    + intros [Hn|Hn];
        [ pose proof (Hpick "top-right" _ (or_intror (or_introl eq_refl)) Hn)
            as Hk
        | pose proof (Hpick "bottom-left" _
                        (or_intror (or_intror (or_introl eq_refl))) Hn)
            as Hk ];
        injection Hk as ->; reflexivity.
    + intros Hn.
      pose proof (Hpick "top-middle" _
                    (or_intror (or_intror (or_intror (or_intror
                       (or_introl eq_refl))))) Hn) as Hk.
      injection Hk as ->. reflexivity.
    + intros Hfar.
      pose proof (first_hit_spec (corners (focus_rect w)) pos) as Hspec.
      rewrite Hhit in Hspec.
      destruct Hspec as (before & point & after & Heq & Hnear & _).
      rewrite (Hfar k point) in Hnear; [discriminate|].
      rewrite Heq. apply in_or_app. right. left. reflexivity.
  - exists ArrowCursor. split; [reflexivity|].
    repeat split; try reflexivity.
    + intros [Hn|Hn];
        [ pose proof (Hpick "top-left" _ (or_introl eq_refl) Hn) as Hk
        | pose proof (Hpick "bottom-right" _
                        (or_intror (or_intror (or_intror (or_introl eq_refl))))
                        Hn) as Hk ];
        discriminate.
    + intros [Hn|Hn];
        [ pose proof (Hpick "top-right" _ (or_intror (or_introl eq_refl)) Hn)
            as Hk
        | pose proof (Hpick "bottom-left" _
                        (or_intror (or_intror (or_introl eq_refl))) Hn)
            as Hk ];
        discriminate.
    + intros Hn.
      pose proof (Hpick "top-middle" _
                    (or_intror (or_intror (or_intror (or_intror
                       (or_introl eq_refl))))) Hn) as Hk.
      discriminate.
Qed.

Lemma hover_cursor_witness :
  let es := [KeyPress Key_S] in
  exists w,
    run true es init = Some w /\
    dragging w = false /\
    option_map cursor (mouseMoveEvent (mkPoint 990 640) w)
      = Some SizeFDiagCursor.
Proof.
  cbv zeta.
  destruct (run true [KeyPress Key_S] init)
    as [w|] eqn:Hrun; [|vm_compute in Hrun; discriminate].
  exists w. split; [reflexivity|].
  assert (dragging w = false) as Hidle.
  { vm_compute in Hrun. injection Hrun as <-. reflexivity. }
  split; [exact Hidle|].
  destruct (hover_cursor true _ w (mkPoint 990 640) Hrun Hidle)
    as (c & Hmove & Hdiag & _).
  rewrite Hmove. cbn [option_map cursor with_cursor]. f_equal.
  apply Hdiag. right.
  vm_compute in Hrun. injection Hrun as <-. reflexivity.
Defined.

(** ** A whole drag *)

Lemma run_moves (available : bool) (path : list QPoint) (rest : list Event) :
  forall w,
    run available (map MouseMove path ++ rest) w =
    match moves path w with
    | Some w1 => run available rest w1
    | None => None
    end.
Proof.
  induction path as [|q path' IH]; intros w;
    cbn [map app run moves deliverable dispatch].
  - reflexivity.
  - destruct (mouseMoveEvent q w); [apply IH | reflexivity].
Qed.

Lemma drag_moves_state (path : list QPoint) (p start : QPoint)
    (corner : string) :
  forall w,
    dragging w = true ->
    drag_start_pos w = Some start ->
    drag_corner w = Some corner ->
    moves (path ++ [p]) w =
      Some (with_focus_rect
              (_update_rect_dimensions (original_rect w)
                 (px p - px start) (py p - py start) corner) w).
Proof.
  induction path as [|q rest IH]; intros w Hd Hs Hc; cbn [moves app].
  - rewrite (drag_move p start corner w Hd Hs Hc). reflexivity.
  - rewrite (drag_move q start corner w Hd Hs Hc).
    rewrite (IH (with_focus_rect _ w) Hd Hs Hc). reflexivity.
Qed.

(** X15. A press on an anchor, any pointer moves ending at [p], and the
    release: the run succeeds; the focus rectangle is the resize of the
    rectangle at the press by the displacement of [p] from the press
    position; the drag is over, the focus area is shown again with the new
    geometry, [last_action] is "Ready", and nothing of auto-scroll has
    changed. *)
Theorem complete_drag (available : bool) (w : Widget) (start : QPoint)
    (corner : string) (path : list QPoint) (p : QPoint) :
  first_hit (corners (focus_rect w)) start = Some corner ->
  exists w',
    run available
      (MousePress start :: map MouseMove (path ++ [p]) ++ [MouseRelease]) w
      = Some w' /\
    focus_rect w' =
      _update_rect_dimensions (focus_rect w)
        (px p - px start) (py p - py start) corner /\
    dragging w' = false /\
    drag_corner w' = None /\
    fa_geometry (focus_area w') = focus_rect w' /\
    fa_visible (focus_area w') = true /\
    last_action w' = "Ready" /\
    scroll_part w' = scroll_part w.
Proof.
  intros Hhit.
  assert (mousePressEvent start w =
          with_focus_area (fa_setVisible false (focus_area w))
            (with_last_action ("Dragging " ++ corner)
               (with_drag true (Some corner) (Some start) (focus_rect w) w)))
    as Hpress.
  { unfold mousePressEvent. rewrite Hhit. reflexivity. }
  assert (moves (path ++ [p]) (mousePressEvent start w) =
          Some (with_focus_rect
                  (_update_rect_dimensions (focus_rect w)
                     (px p - px start) (py p - py start) corner)
                  (mousePressEvent start w))) as Hmoves.
  { rewrite (drag_moves_state path p start corner (mousePressEvent start w));
      rewrite Hpress; reflexivity. }
  exists (mouseReleaseEvent
            (with_focus_rect
               (_update_rect_dimensions (focus_rect w)
                  (px p - px start) (py p - py start) corner)
               (mousePressEvent start w))).
  split.
  - cbn [run deliverable dispatch]. rewrite run_moves, Hmoves.
    reflexivity.
  - rewrite Hpress. unfold mouseReleaseEvent.
    cbn [dragging with_focus_rect with_focus_area with_last_action with_drag].
    repeat split.
Qed.

Lemma complete_drag_witness :
  let start := mkPoint 999 649 in
  first_hit (corners (focus_rect init)) start = Some "bottom-right" /\
  exists w',
    run true
      (MousePress start
         :: map MouseMove ([mkPoint 500 300] ++ [mkPoint 1049 619])
         ++ [MouseRelease]) init
      = Some w' /\
    focus_rect w' =
      _update_rect_dimensions (focus_rect init) 50 (-30) "bottom-right".
Proof.
  cbv zeta. split; [reflexivity|].
  destruct (complete_drag true init (mkPoint 999 649) "bottom-right"
              [mkPoint 500 300] (mkPoint 1049 619) eq_refl)
    as (w' & Hrun & Hrect & _).
  exists w'. split; [exact Hrun | exact Hrect].
Defined.

(** ** Dragging and scrolling do not meet *)

(** X16. A mouse event changes nothing of auto-scroll: the flag, the
    timer, the speed, the step counter, the events posted, the warnings and
    the click-through attribute stay as they are.  A key or a tick changes
    nothing of the drag: the focus rectangle, the drag state and the cursor
    stay as they are. *)
Theorem handlers_independent (available : bool) (e : Event)
    (w w' : Widget) :
  dispatch available e w = Some w' ->
  if is_mouse e
  then scroll_part w' = scroll_part w /\
       WA_TransparentForMouseEvents (focus_area w')
         = WA_TransparentForMouseEvents (focus_area w)
  else drag_part w' = drag_part w.
Proof.
  destruct e as [pos|pos| |key|inj]; cbn [dispatch is_mouse].
  - unfold mouseMoveEvent. destruct (dragging w).
    + destruct (drag_start_pos w), (drag_corner w);
        try discriminate; intros [= <-]; split; reflexivity.
    + destruct (first_hit (corners (focus_rect w)) pos);
        intros [= <-]; [rewrite _update_cursor_for_corner_eq|];
        split; reflexivity.
  - intros [= <-]. unfold mousePressEvent.
    destruct (first_hit (corners (focus_rect w)) pos); split; reflexivity.
  - intros [= <-]. unfold mouseReleaseEvent.
    destruct (dragging w); split; reflexivity.
  - intros [= <-]. destruct key; cbn [keyPressEvent]; try reflexivity.
    + unfold toggle_auto_scroll. destruct (auto_scrolling w); reflexivity.
    + destruct (scroll_speed w >? 0); reflexivity.
    + destruct (scroll_speed w >? 0); reflexivity.
    + destruct (scroll_speed w >? 0); reflexivity.
  - intros [= <-]. unfold perform_smooth_scroll.
    destruct (negb (auto_scrolling w) || negb available); [reflexivity|].
    destruct inj; [|reflexivity].
    cbn [current_smooth_step with_posted with_current_smooth_step].
    destruct (current_smooth_step w + 1 >=? smooth_scroll_steps);
      reflexivity.
Qed.

Lemma handlers_independent_witness :
  let w := toggle_auto_scroll init in
  dispatch true (TimerTick Posts) w
    = Some (perform_smooth_scroll true Posts w) /\
  drag_part (perform_smooth_scroll true Posts w) = drag_part w.
Proof.
  cbv zeta. split; [reflexivity|].
  apply (handlers_independent true (TimerTick Posts)
           (toggle_auto_scroll init)
           (perform_smooth_scroll true Posts (toggle_auto_scroll init))
           eq_refl).
Defined.

(** ** The status lines and the next event *)

(** X17. After any run of events with auto-scroll on, the direction line
    of the status display names the direction of the event the next tick
    posts (UP for a positive delta, DOWN for a negative one, and the delta
    is never zero), and the speed line shows its magnitude. *)
Theorem status_matches_next_event (es : list Event) (w : Widget) :
  run true es init = Some w ->
  auto_scrolling w = true ->
  exists d,
    posted (perform_smooth_scroll true Posts w) = (posted w ++ [d])%list /\
    ((0 < d /\ nth 1 (info_display w) "" = "SPACE: Scroll Direction [UP]") \/
     (d < 0 /\ nth 1 (info_display w) "" = "SPACE: Scroll Direction [DOWN]"))
    /\
    nth 2 (info_display w) ""
      = "+/-: Scroll Speed [" ++ str_of_nat_Z (Z.abs d) ++ "]".
Proof.
  intros Hrun Hon.
  pose proof (run_init_consistent _ _ _ Hrun) as Hcons.
  pose proof (speed_nonzero w Hcons) as Hs.
  destruct (step_in_range w Hcons) as [Hlo Hhi].
  unfold smooth_scroll_steps in Hhi.
  destruct (tick_step w Hon (conj Hlo Hhi)) as (Hposted & _).
  exists (scroll_speed w). split; [exact Hposted|].
  unfold info_display. cbn [nth]. split; [|reflexivity].
  destruct (Z.ltb_spec (scroll_speed w) 0).
  - right. split; [assumption | reflexivity].
  - left. split; [lia | reflexivity].
Qed.

Lemma status_matches_next_event_witness :
  let es := [KeyPress Key_Space; KeyPress Key_Plus; KeyPress Key_S] in
  exists w,
    run true es init = Some w /\
    auto_scrolling w = true /\
    nth 1 (info_display w) "" = "SPACE: Scroll Direction [UP]" /\
    posted (perform_smooth_scroll true Posts w) = [2].
Proof.
  cbv zeta.
  destruct (run true [KeyPress Key_Space; KeyPress Key_Plus; KeyPress Key_S]
              init)
    as [w|] eqn:Hrun; [|vm_compute in Hrun; discriminate].
  exists w. split; [reflexivity|].
  assert (auto_scrolling w = true) as Hon.
  { vm_compute in Hrun. injection Hrun as <-. reflexivity. }
  split; [exact Hon|].
  destruct (status_matches_next_event _ w Hrun Hon) as (d & _).
  vm_compute in Hrun. injection Hrun as <-. split; reflexivity.
Defined.
